(** * parsyfiles: cascading parsers, parsing chains and multifile collections

    A shallow embedding of [parsyfiles/parsing_combining_parsers.py] and of
    the collection support of [parsyfiles/support_for_collections.py],
    with the properties of the cascade, the chain, the multifile collection
    parser and the lazy dictionary stated over it.

    Conventions.  A Python object that is mutated ([self]) is a record that
    the operation takes and returns; a call that may raise returns
    [exn + A]; the calls made to collaborators (candidate parsers, child
    plans, the loading method) are recorded in a call log, so that "is
    called", "is not called again" and "in this order" can be stated.
    Logging and the rendering of messages are left out: a logger is passed
    wherever the source uses one, and what a collaborator raises is an
    instance of [Exception]. *)

From Stdlib Require Import ZArith Lia List String Ascii.
From stdpp Require Import gmap strings list fin_maps sorting.

Open Scope string_scope.
Open Scope list_scope.

Set Warnings "-register-all".

(** ** Python values shared by the three components *)

(** A type object as it appears in [supported_types]: the [typing.Any]
    sentinel or a class, identified by its name. *)
Inductive pytype : Type :=
| Any
| Cls (name : string).

#[global] Instance pytype_eq_dec : EqDecision pytype.
Proof. solve_decision. Defined.

#[global] Instance pytype_countable : Countable pytype.
Proof.
  refine (inj_countable'
            (fun t => match t with Any => None | Cls n => Some n end)
            (fun o => match o with None => Any | Some n => Cls n end) _).
  intros []; reflexivity.
Defined.

(** [PersistedObject]: an object on the file system, with its multifile
    children by name (empty for a single file). *)
Inductive PersistedObject : Type :=
| Persisted (location : string) (children : list (string * PersistedObject)).

Definition get_multifile_children (obj : PersistedObject)
  : list (string * PersistedObject) :=
  match obj with Persisted _ ch => ch end.

(** Parsed values are opaque to the code under study. *)
Inductive pyobj : Type :=
| PyNone
| PyInt (z : Z)
| PyStr (s : string).

(** Which of the two [CascadeError] factories built the error. *)
Inductive cascade_phase : Type :=
| for_parsing_plan_creation
| for_execution.

(** Exceptions.  The message of a [ValueError] is the fixed part of the
    text in the source.  A [CascadeError] is rendered, in the source, from
    the dictionary [caught] of the failures by parser; the model keeps the
    dictionary itself, keyed by the identity of the parser object. *)
Inductive exn : Type :=
| ValueError (msg : string)
| TypeError (msg : string)
| KeyError (key : string)
| Exception (msg : string)
| FolderAndFilesStructureError (obj : PersistedObject) (expected found : nat)
| CascadeError (phase : cascade_phase) (caught : gmap nat exn).

(** The outcome of a call that may raise. *)
Definition res (A : Type) : Type := exn + A.

Definition ret {A} (a : A) : res A := inr a.
Definition raise {A} (e : exn) : res A := inl e.

Definition bind {A B} (m : res A) (k : A -> res B) : res B :=
  match m with
  | inl e => inl e
  | inr a => k a
  end.

Notation "'let!' x ':=' m 'in' k" := (bind m (fun x => k))
  (at level 10, x name, m at level 100, k at level 200).

Definition is_raise {A} (r : res A) : bool :=
  match r with inl _ => true | inr _ => false end.

(** A parsing plan as the cascade sees it: the parser it is bound to (its
    [parser] attribute, a dictionary key) and what [execute] does.  The
    record gives the outcome of one call of [execute]: a plan object that
    is executed again, and may then do otherwise, is another record (see
    [CascadingParserPlans.later]). *)
Record ParsingPlan : Type := {
  pp_parser : nat;
  pp_execute : res pyobj
}.

(** The [AnyParser] interface as the code under study uses it.  [parser_key]
    is the identity of the object (parsers are dictionary keys);
    [supports_singlefile] and [supports_multifile] are the answers of the
    object's own methods. *)
Record AnyParser : Type := {
  parser_key : nat;
  supported_types : gset pytype;
  supported_exts : gset string;
  supports_singlefile : bool;
  supports_multifile : bool;
  create_parsing_plan : pytype -> PersistedObject -> res ParsingPlan;
  _parse_singlefile : pytype -> string -> string -> res pyobj
}.

(** ** CascadingParser: the list of candidates *)

Module CascadingParser.

Definition msg_singlefile : string :=
  "Cannot add this parser to this parsing cascade : it does not match the rest of the cascades configuration (singlefile support)".
Definition msg_multifile : string :=
  "Cannot add this parser to this parsing cascade : it does not match the rest of the cascades configuration (multifile support)".
Definition msg_any_type : string :=
  "Cannot add this parser to this parsing cascade : it does not match the rest of the cascades configuration (the cascade supports any type while the parser only supports ".
Definition msg_missing_types : string :=
  "Cannot add this parser to this parsing chain : it does not match the rest of the chains configuration (supported types should at least contain the supported types already in place. The parser misses type(s) ".
Definition msg_missing_exts : string :=
  "Cannot add this parser to this parsing chain : it does not match the rest of the chains configuration (supported extensions should at least contain the supported extensions already in place. The parser misses extension(s) ".

(** The attributes of a [CascadingParser] object.  [__init__] does not call
    the base constructor: [supported_exts] and [supported_types] exist only
    once [add_parser_to_cascade] has assigned them, which it does before it
    reads them; they are empty in the fresh object of the model. *)
Record t : Type := {
  configured : bool;
  _parsers_list : list AnyParser;
  self_supported_exts : gset string;
  self_supported_types : gset pytype
}.

(** The state after the two assignments of [__init__]. *)
Definition fresh : t :=
  {| configured := false; _parsers_list := [];
     self_supported_exts := ∅; self_supported_types := ∅ |}.

Section Inherited.

(** [self.supports_singlefile()] and [self.supports_multifile()] on the
    cascade are inherited from [AnyParser] ([parsing_core], outside the
    sources at hand).  The cascade has no capability attribute of its own
    besides the two sets, so the inherited queries are functions of
    them. *)
Variable inherited_supports_singlefile : gset string -> gset pytype -> bool.
Variable inherited_supports_multifile : gset string -> gset pytype -> bool.

Definition self_supports_singlefile (self : t) : bool :=
  inherited_supports_singlefile (self_supported_exts self) (self_supported_types self).

Definition self_supports_multifile (self : t) : bool :=
  inherited_supports_multifile (self_supported_exts self) (self_supported_types self).

(** The first statement of [add_parser_to_cascade]:
    [if not self.configured: self.supported_exts = ...; self.supported_types = ...]. *)
Definition configure (self : t) (parser : AnyParser) : t :=
  if negb (configured self) then
    {| configured := configured self;
       _parsers_list := _parsers_list self;
       self_supported_exts := supported_exts parser;
       self_supported_types := supported_types parser |}
  else self.

(** The four checks, in the order of the source. *)
Definition check_compliance (self : t) (parser : AnyParser) : res unit :=
  if self_supports_singlefile self && negb (supports_singlefile parser) then
    raise (ValueError msg_singlefile)
  else if self_supports_multifile self && negb (supports_multifile parser) then
    raise (ValueError msg_multifile)
  else if bool_decide (Any ∉ supported_types parser)
          && bool_decide (Any ∈ self_supported_types self) then
    raise (ValueError msg_any_type)
  else if bool_decide (Any ∉ supported_types parser)
          && (0 <? size (self_supported_types self ∖ supported_types parser))%nat then
    raise (ValueError msg_missing_types)
  else if (0 <? size (self_supported_exts self ∖ supported_exts parser))%nat then
    raise (ValueError msg_missing_exts)
  else ret tt.

Definition append_parser (self : t) (parser : AnyParser) : t :=
  {| configured := configured self;
     _parsers_list := _parsers_list self ++ [parser];
     self_supported_exts := self_supported_exts self;
     self_supported_types := self_supported_types self |}.

(** [add_parser_to_cascade]: the object after the call and the outcome. *)
Definition add_parser_to_cascade (self : t) (parser : AnyParser) : t * res unit :=
  let self := configure self parser in
  match check_compliance self parser with
  | inl e => (self, inl e)
  | inr _ => (append_parser self parser, inr tt)
  end.

(** [__init__(parsers)]: the adds in order; the first error leaves the
    constructor. *)
Fixpoint add_all (self : t) (parsers : list AnyParser) : res t :=
  match parsers with
  | [] => ret self
  | parser :: rest =>
      match add_parser_to_cascade self parser with
      | (_, inl e) => raise e
      | (self', inr _) => add_all self' rest
      end
  end.

Definition __init__ (parsers : option (list AnyParser)) : res t :=
  match parsers with
  | None => ret fresh
  | Some l => add_all fresh l
  end.

End Inherited.

End CascadingParser.

(** ** CascadingParser.CascadingParsingPlan *)

Module CascadingParsingPlan.

(** The calls a plan makes to its candidates, by index in [parser_list]:
    [p.create_parsing_plan(...)] for the candidate at index [i], and
    [active_parsing_plan.execute(...)] while the active index is [i]. *)
Inductive call : Type :=
| Create (i : Z)
| Execute (i : Z).




(** The attributes of a plan.  [parser] is the cascading parser the plan
    belongs to.  [active_parsing_plan] holds the [ActiveParsingPlan]
    wrapper, which forwards [execute] and the [parser] attribute to the
    wrapped plan. *)
Record t : Type := {
  obj_type : pytype;
  obj_on_fs_to_parse : PersistedObject;
  parser : nat;
  parser_list : list AnyParser;
  active_parser_idx : Z;
  active_parsing_plan : option ParsingPlan;
  parsing_plan_creation_errors : gmap nat exn
}.

Definition set_active (self : t) (pp : ParsingPlan) (i : Z) : t :=
  {| obj_type := obj_type self;
     obj_on_fs_to_parse := obj_on_fs_to_parse self;
     parser := parser self;
     parser_list := parser_list self;
     active_parser_idx := i;
     active_parsing_plan := Some pp;
     parsing_plan_creation_errors := parsing_plan_creation_errors self |}.

Definition set_creation_errors (self : t) (errs : gmap nat exn) : t :=
  {| obj_type := obj_type self;
     obj_on_fs_to_parse := obj_on_fs_to_parse self;
     parser := parser self;
     parser_list := parser_list self;
     active_parser_idx := active_parser_idx self;
     active_parsing_plan := active_parsing_plan self;
     parsing_plan_creation_errors := errs |}.

(** The body of [for i in range(self.active_parser_idx+1, len(self.parser_list))]:
    [rest] holds the candidates from index [i] on.  The boolean tells
    whether the loop left through [return]. *)
Fixpoint activate_from (self : t) (i : Z) (rest : list AnyParser) (log : list call)
  : t * list call * bool :=
  match rest with
  | [] => (self, log, false)
  | p :: rest' =>
      match create_parsing_plan p (obj_type self) (obj_on_fs_to_parse self) with
      | inr pp => (set_active self pp i, log ++ [Create i], true)
      | inl e =>
          activate_from
            (set_creation_errors self
               (<[parser_key p := e]> (parsing_plan_creation_errors self)))
            (i + 1) rest' (log ++ [Create i])
      end
  end.

(** [activate_next_working_parser].  [active_parser_idx] is [-1] or the
    index of a candidate.  [caught.update(already_caught_execution_errors)]
    acts on the dictionary [self.parsing_plan_creation_errors] itself: the
    plan keeps the merged dictionary, in which an entry of the execution
    errors replaces an entry of the same parser. *)
Definition activate_next_working_parser (self : t)
    (already_caught_execution_errors : option (gmap nat exn)) (log : list call)
  : t * list call * res unit :=
  let '(self1, log1, activated) :=
    if (active_parser_idx self + 1 <? Z.of_nat (length (parser_list self)))%Z then
      activate_from self (active_parser_idx self + 1)
        (drop (Z.to_nat (active_parser_idx self + 1)) (parser_list self)) log
    else (self, log, false) in
  if activated then (self1, log1, ret tt)
  else
    match already_caught_execution_errors with
    | None =>
        (self1, log1,
         raise (CascadeError for_parsing_plan_creation (parsing_plan_creation_errors self1)))
    | Some execution_errors =>
        let caught := execution_errors ∪ parsing_plan_creation_errors self1 in
        (set_creation_errors self1 caught, log1, raise (CascadeError for_execution caught))
    end.

Section Constructor.

(** What [check_var(parser_list, ..., min_len=1)] raises on an empty list
    ([var_checker] is outside the sources at hand). *)
Variable check_var_min_len : exn.

(** [__init__]: the attributes, then the first activation. *)
Definition __init__ (desired_type : pytype) (obj_on_filesystem : PersistedObject)
    (parser : nat) (parser_list : list AnyParser) : list call * res t :=
  match parser_list with
  | [] => ([], raise check_var_min_len)
  | _ =>
      let self :=
        {| obj_type := desired_type;
           obj_on_fs_to_parse := obj_on_filesystem;
           parser := parser;
           parser_list := parser_list;
           active_parser_idx := (-1)%Z;
           active_parsing_plan := None;
           parsing_plan_creation_errors := ∅ |} in
      match activate_next_working_parser self None [] with
      | (self', log, inr _) => (log, ret self')
      | (_, log, inl e) => (log, raise e)
      end
  end.

End Constructor.

Definition msg_empty : string :=
  "Cannot execute this parsing plan : empty parser list !".

(** The [while self.active_parsing_plan is not None] loop of [execute],
    on a number of iterations. [None]: the iterations are used up. *)
Fixpoint execute_loop (fuel : nat) (self : t) (execution_errors : gmap nat exn)
    (log : list call) : option (t * list call * res pyobj) :=
  match fuel with
  | O => None
  | S fuel' =>
      match active_parsing_plan self with
      | None =>
          let caught := execution_errors ∪ parsing_plan_creation_errors self in
          Some (set_creation_errors self caught, log,
                raise (CascadeError for_execution caught))
      | Some pp =>
          let log1 := log ++ [Execute (active_parser_idx self)] in
          match pp_execute pp with
          | inr v => Some (self, log1, ret v)
          | inl e =>
              let execution_errors' := <[pp_parser pp := e]> execution_errors in
              match activate_next_working_parser self (Some execution_errors') log1 with
              | (self', log', inl err) => Some (self', log', raise err)
              | (self', log', inr _) => execute_loop fuel' self' execution_errors' log'
              end
          end
      end
  end.

(** [execute].  An iteration that does not leave the loop activates a later
    candidate, so one iteration per candidate, and one more, are enough:
    [execute_spec] shows that the result is never [None]. *)
Definition execute (self : t) (log : list call) : option (t * list call * res pyobj) :=
  match active_parsing_plan self with
  | Some _ => execute_loop (S (length (parser_list self))) self ∅ log
  | None => Some (self, log, raise (Exception msg_empty))
  end.

(** [n] calls of [execute] in a row on the same plan object, whatever each
    of them returns or raises. *)
Fixpoint execute_times (n : nat) (self : t) (log : list call) : option (t * list call) :=
  match n with
  | O => Some (self, log)
  | S n' =>
      match execute self log with
      | Some (self', log', _) => execute_times n' self' log'
      | None => None
      end
  end.

(** *** Vocabulary of the statements about the plan *)

(** The failure of a candidate, with the key it is recorded under: the
    candidate itself when [create_parsing_plan] fails, the [parser] of its
    plan when the plan fails in [execute]. *)
Definition creation_failure (ty : pytype) (obj : PersistedObject) (p : AnyParser)
  : option (nat * exn) :=
  match create_parsing_plan p ty obj with
  | inl e => Some (parser_key p, e)
  | inr _ => None
  end.

Definition execution_failure (ty : pytype) (obj : PersistedObject) (p : AnyParser)
  : option (nat * exn) :=
  match create_parsing_plan p ty obj with
  | inl _ => None
  | inr pp => match pp_execute pp with
              | inl e => Some (pp_parser pp, e)
              | inr _ => None
              end
  end.

(** Dictionary assignment for each recorded failure, in list order. *)
Definition record_failures (f : AnyParser -> option (nat * exn))
    (l : list AnyParser) (m : gmap nat exn) : gmap nat exn :=
  fold_left (fun acc p => match f p with
                          | Some (k, e) => <[k := e]> acc
                          | None => acc
                          end) l m.

Definition candidate_fails (ty : pytype) (obj : PersistedObject) (p : AnyParser) : Prop :=
  is_Some (creation_failure ty obj p) \/ is_Some (execution_failure ty obj p).

(** A candidate is active: the plan held is the one that the candidate at
    [active_parser_idx] builds. *)
Definition activated (self : t) : Prop :=
  (0 <= active_parser_idx self)%Z /\
  exists p pp,
    parser_list self !! Z.to_nat (active_parser_idx self) = Some p /\
    create_parsing_plan p (obj_type self) (obj_on_fs_to_parse self) = inr pp /\
    active_parsing_plan self = Some pp.

(** Two states of a plan of the same query. *)
Definition same_query (self self' : t) : Prop :=
  parser_list self' = parser_list self /\
  obj_type self' = obj_type self /\
  obj_on_fs_to_parse self' = obj_on_fs_to_parse self /\
  parser self' = parser self.

(** The candidates from the active one on. *)
Definition remaining (self : t) : list AnyParser :=
  drop (Z.to_nat (active_parser_idx self)) (parser_list self).

(** [range(i, i + n)]. *)
Definition zrange (i : Z) (n : nat) : list Z :=
  map (fun k => (i + Z.of_nat k)%Z) (seq 0 n).

(** How the indices of two calls compare when the first comes before the
    second in the log of one [execute]: a plan is created for a later
    candidate than any created or executed before, and a candidate is
    executed once, after its plan is created. *)
Definition call_lt (c1 c2 : call) : Prop :=
  match c1, c2 with
  | Create i, Create i' => (i < i')%Z
  | Create i, Execute j => (i <= j)%Z
  | Execute j, Create i => (j < i)%Z
  | Execute j, Execute j' => (j < j')%Z
  end.

(** The same across several [execute]: once a candidate has been executed,
    no plan is created for it or for a candidate before it. *)
Definition executed_then_created (c1 c2 : call) : Prop :=
  match c1, c2 with
  | Execute j, Create i => (j < i)%Z
  | _, _ => True
  end.

(** All the failures of the candidates of a list, those of
    [create_parsing_plan] first. *)
Definition failures (ty : pytype) (obj : PersistedObject) (l : list AnyParser)
  : list (nat * exn) :=
  omap (creation_failure ty obj) l ++ omap (execution_failure ty obj) l.

(** The calls of one [execute] that starts with candidate [i] active and
    ends with candidate [i'] active: the active plan is executed; when
    that fails, plans are created for the candidates [i+1], [i+2], ...
    until one is built, which is executed in turn, or until the list
    ends. *)
Inductive shape : Z -> list call -> Z -> Prop :=
| shape_last i n : shape i (Execute i :: map Create (zrange (i + 1) n)) i
| shape_next i n tr i' :
    shape (i + 1 + Z.of_nat n) tr i' ->
    shape i (Execute i :: map Create (zrange (i + 1) (S n)) ++ tr) i'.

End CascadingParsingPlan.

(** ** ParsingChain *)

Module ParsingChain.

(** The [Converter] interface as the chain uses it.  [is_able_to_convert]
    takes [strict], [from_type] and [to_type] ([None] for any); the model
    keeps the truth value that [__init__] tests. *)
Record Converter : Type := {
  from_type : pytype;
  to_type : pytype;
  is_able_to_convert : bool -> pytype -> option pytype -> bool;
  convert : pytype -> pyobj -> res pyobj
}.

Definition msg_pointless : string :=
  "Creating a parsing chain from a base parser able to parse any type is just pointless.".
Definition msg_several : string :=
  "Cannot create a parsing chain from a parser that is able to parse several types without restricting it explicitly. Please set a value for 'base_parser_chosen_dest_type'".
Definition msg_inconsistent : string :=
  "Cannot chain this parser and this converter : types are not consistent".

(** The attributes of a chain; [chain_supported_types] and
    [chain_supported_exts] are the two arguments handed to the base
    constructor. *)
Record t : Type := {
  _base_parser : AnyParser;
  _converter : Converter;
  chain_supported_types : gset pytype;
  chain_supported_exts : gset string;
  strict : bool
}.

(** [next(iter(s))]. *)
Definition next_iter (s : gset pytype) : res pytype :=
  match elements s with
  | x :: _ => ret x
  | [] => raise (Exception "StopIteration")
  end.

(** [__init__].  The arguments are typed, so the [check_var] calls on their
    types pass and are left out. *)
Definition __init__ (base_parser : AnyParser) (converter : Converter) (strict : bool)
    (base_parser_chosen_dest_type : option pytype) : res t :=
  if bool_decide (Any ∈ supported_types base_parser) then
    raise (ValueError msg_pointless)
  else
    let! parser_out_type :=
      match base_parser_chosen_dest_type with
      | None =>
          if negb (size (supported_types base_parser) =? 1)%nat then
            raise (ValueError msg_several)
          else next_iter (supported_types base_parser)
      | Some chosen => ret chosen
      end in
    if negb (is_able_to_convert converter strict parser_out_type None) then
      raise (ValueError msg_inconsistent)
    else
      ret {| _base_parser := base_parser;
             _converter := converter;
             chain_supported_types := {[ to_type converter ]};
             chain_supported_exts := supported_exts base_parser;
             strict := strict |}.

(** The calls of [_parse_singlefile] to its two collaborators, with the
    type each is asked for. *)
Inductive call : Type :=
| BaseParseSinglefile (desired_type : pytype) (file_path encoding : string)
| Convert (desired_type : pytype) (source : pyobj).

(** [_parse_singlefile]: no [try] around either call. *)
Definition parse_singlefile (self : t) (desired_type : pytype)
    (file_path encoding : string) : list call * res pyobj :=
  let t0 := from_type (_converter self) in
  match _parse_singlefile (_base_parser self) t0 file_path encoding with
  | inl e => ([BaseParseSinglefile t0 file_path encoding], raise e)
  | inr first =>
      ([BaseParseSinglefile t0 file_path encoding; Convert desired_type first],
       convert (_converter self) desired_type first)
  end.

End ParsingChain.

(** ** Dictionaries in insertion order *)

Module Dict.

Definition t (V : Type) : Type := list (string * V).

Fixpoint get {V} (d : t V) (k : string) : option V :=
  match d with
  | [] => None
  | (k', v) :: d' => if String.eqb k' k then Some v else get d' k
  end.

(** [d[k] = v]: in place when [k] is a key already, at the end otherwise. *)
Fixpoint set {V} (d : t V) (k : string) (v : V) : t V :=
  match d with
  | [] => [(k, v)]
  | (k', v') :: d' =>
      if String.eqb k' k then (k', v) :: d' else (k', v') :: set d' k v
  end.

Definition keys {V} (d : t V) : list string := map fst d.

(** The order of [sorted] on the items: the order of Python on the keys,
    code point by code point. *)
Definition key_le {V} (x y : string * V) : Prop := String.leb (fst x) (fst y) = true.

Fixpoint insert_sorted {V} (x : string * V) (l : list (string * V)) : list (string * V) :=
  match l with
  | [] => [x]
  | y :: l' => if String.leb (fst x) (fst y) then x :: l else y :: insert_sorted x l'
  end.

(** [sorted(d.items())]: the keys of a dictionary are distinct, so the
    order of the pairs is the order of their keys. *)
Definition sorted_items {V} (d : t V) : list (string * V) :=
  fold_right insert_sorted [] d.

End Dict.

(** ** LazyDictionary *)

Module LazyDictionary.

Section Lazy.

(** [V]: the values; [W]: whatever [loading_method] reads and changes
    when it is called. *)
Context {V W : Type}.

Record t : Type := {
  inner_dict : gmap string V;
  lazyloadable_keys : list string;
  loading_method : string -> W -> res V * W
}.

Definition __init__ (lazyloadable_keys : list string)
    (loading_method : string -> W -> res V * W) : t :=
  {| inner_dict := ∅;
     lazyloadable_keys := lazyloadable_keys;
     loading_method := loading_method |}.

Definition set_inner (self : t) (d : gmap string V) : t :=
  {| inner_dict := d;
     lazyloadable_keys := lazyloadable_keys self;
     loading_method := loading_method self |}.

Definition __contains__ (self : t) (item : string) : bool :=
  bool_decide (item ∈ lazyloadable_keys self).

Definition keys (self : t) : gset string := list_to_set (lazyloadable_keys self).

Definition __len__ (self : t) : nat := length (lazyloadable_keys self).

Definition __iter__ (self : t) : list string := lazyloadable_keys self.

(** [__getitem__].  [calls] lists the names [loading_method] has been
    called with. *)
Definition __getitem__ (self : t) (name : string) (w : W) (calls : list string)
  : t * W * list string * res V :=
  match inner_dict self !! name with
  | Some v => (self, w, calls, ret v)
  | None =>
      if bool_decide (name ∈ lazyloadable_keys self) then
        match loading_method self name w with
        | (inr val, w') => (set_inner self (<[name := val]> (inner_dict self)),
                            w', calls ++ [name], ret val)
        | (inl e, w') => (self, w', calls ++ [name], raise e)
        end
      else (self, w, calls, raise (KeyError name))
  end.

(** [get]: [KeyError] gives the default, whoever raised it. *)
Definition get (self : t) (key : string) (default : V) (w : W) (calls : list string)
  : t * W * list string * res V :=
  match __getitem__ self key w calls with
  | (self', w', calls', inl (KeyError _)) => (self', w', calls', ret default)
  | r => r
  end.

(** The lookups [names], one after the other, with their outcomes. *)
Fixpoint getitems (self : t) (names : list string) (w : W) (calls : list string)
  : t * W * list string * list (res V) :=
  match names with
  | [] => (self, w, calls, [])
  | name :: rest =>
      let '(self1, w1, calls1, r) := __getitem__ self name w calls in
      let '(self2, w2, calls2, rs) := getitems self1 rest w1 calls1 in
      (self2, w2, calls2, r :: rs)
  end.

End Lazy.

Arguments t : clear implicits.

End LazyDictionary.

(** ** MultifileCollectionParser *)

Module MultifileCollectionParser.

(** The first component of what [_extract_collection_base_type] returns:
    one item type, or a Python tuple of types, one per item, for a tuple
    type of fixed arity. *)
Inductive base_type : Type :=
| ItemType (typ : pytype)
| TupleTypes (typs : list pytype).

(** The calls made for a child while the plan of the children is built. *)
Inductive call : Type :=
| BuildParser (child_name : string) (child_typ : pytype)
| CreatePlan (child_name : string) (child_typ : pytype).

(** The dictionary [results] of [_parse_multifile]: a fresh [dict] or a
    [LazyDictionary]. *)
Inductive results : Type :=
| ParsedNow (d : Dict.t pyobj)
| Lazily (d : LazyDictionary.t pyobj (list string)).

(** What [_parse_multifile] returns. *)
Inductive collection : Type :=
| KeySortedListFacadeForDict (inner_dict : results)
| KeySortedTupleFacadeForDict (inner_dict : results)
| SetFacadeForDict (inner_dict : results)
| TheDict (d : results).

Definition msg_lazy_and_background : string :=
  "lazy_parsing and background_parsing cannot be set to true at the same time".
Definition msg_background : string :=
  "Background parsing is not yet supported".
Definition msg_not_supported : string :=
  "Cannot build the desired collection out of the multifile children: desired type is not supported: ".

Section Collaborators.

(** [type_inspection_tools._extract_collection_base_type], the
    [parser_finder] of the object and the built-in [issubclass]: outside
    the sources at hand. *)
Variable _extract_collection_base_type : pytype -> res (base_type * option pytype).
Variable build_parser_for_fileobject_and_desiredtype :
  PersistedObject -> pytype -> res AnyParser.
Variable issubclass : pytype -> pytype -> bool.

(** [FolderAndFilesStructureError.create_for_multifile_tuple], of
    [filesystem_mapping]: outside the sources at hand too.  It is called
    with the object, the length of the tuple of types and the number of
    children, and returns the exception to raise, or raises itself. *)
Variable create_for_multifile_tuple : PersistedObject -> nat -> nat -> res exn.

(** The loop over [zip(sorted(children.items()), subtypes)]. *)
Fixpoint build_children (todo : list (string * PersistedObject * pytype))
    (children_plan : Dict.t ParsingPlan) (log : list call)
  : list call * res (Dict.t ParsingPlan) :=
  match todo with
  | [] => (log, ret children_plan)
  | (child_name, child_fileobject, child_typ) :: rest =>
      let log1 := log ++ [BuildParser child_name child_typ] in
      match build_parser_for_fileobject_and_desiredtype child_fileobject child_typ with
      | inl e => (log1, raise e)
      | inr child_parser =>
          let log2 := log1 ++ [CreatePlan child_name child_typ] in
          match create_parsing_plan child_parser child_typ child_fileobject with
          | inl e => (log2, raise e)
          | inr pp => build_children rest (Dict.set children_plan child_name pp) log2
          end
      end
  end.

(** The names of the children of [todo]. *)
Definition names (todo : list (string * PersistedObject * pytype)) : list string :=
  map (fun x => fst (fst x)) todo.

(** The calls that building the plan of every child takes, in the order
    of [todo]. *)
Definition calls_for (todo : list (string * PersistedObject * pytype)) : list call :=
  flat_map (fun '(child_name, _, child_typ) =>
              [BuildParser child_name child_typ; CreatePlan child_name child_typ]) todo.

(** The plan of one child. *)
Definition child_plan (child_fileobject : PersistedObject) (child_typ : pytype)
  : res ParsingPlan :=
  let! child_parser :=
    build_parser_for_fileobject_and_desiredtype child_fileobject child_typ in
  create_parsing_plan child_parser child_typ child_fileobject.

(** The types of the children: the tuple when its length is the number
    of children, [[subtypes] * n_children] for one item type.  With another
    number of children, [raise] is given what the factory returns, unless
    the factory raises first. *)
Definition subtypes_for (obj_on_fs : PersistedObject) (subtypes : base_type)
  : res (list pytype) :=
  let n_children := length (get_multifile_children obj_on_fs) in
  match subtypes with
  | TupleTypes typs =>
      if negb (n_children =? length typs)%nat then
        let! e := create_for_multifile_tuple obj_on_fs (length typs)
                    (length (get_multifile_children obj_on_fs)) in
        raise e
      else ret typs
  | ItemType typ => ret (repeat typ n_children)
  end.

Definition _get_parsing_plan_for_multifile_children (obj_on_fs : PersistedObject)
    (desired_type : pytype) : list call * res (Dict.t ParsingPlan) :=
  match _extract_collection_base_type desired_type with
  | inl e => ([], raise e)
  | inr (subtypes, key_type) =>
      match subtypes_for obj_on_fs subtypes with
      | inl e => ([], raise e)
      | inr typs =>
          build_children
            (combine (Dict.sorted_items (get_multifile_children obj_on_fs)) typs) [] []
      end
  end.

(** [lambda x: parsing_plan_for_children[x].execute(...)]; the names of
    the children executed are the state it changes. *)
Definition loading_method_for (parsing_plan_for_children : Dict.t ParsingPlan)
    (x : string) (executed : list string) : res pyobj * list string :=
  match Dict.get parsing_plan_for_children x with
  | None => (raise (KeyError x), executed)
  | Some child_plan => (pp_execute child_plan, executed ++ [x])
  end.

(** The loop over [sorted(parsing_plan_for_children.items())]. *)
Fixpoint parse_children (todo : list (string * ParsingPlan)) (results : Dict.t pyobj)
    (executed : list string) : list string * res (Dict.t pyobj) :=
  match todo with
  | [] => (executed, ret results)
  | (child_name, child_plan) :: rest =>
      match pp_execute child_plan with
      | inl e => (executed ++ [child_name], raise e)
      | inr v => parse_children rest (Dict.set results child_name v)
                   (executed ++ [child_name])
      end
  end.

(** The final [if issubclass(desired_type, ...)] cascade. *)
Definition assemble (desired_type : pytype) (r : results) : res collection :=
  if issubclass desired_type (Cls "list") then ret (KeySortedListFacadeForDict r)
  else if issubclass desired_type (Cls "tuple") || issubclass desired_type (Cls "Tuple")
  then ret (KeySortedTupleFacadeForDict r)
  else if issubclass desired_type (Cls "set") then ret (SetFacadeForDict r)
  else if issubclass desired_type (Cls "dict") then ret (TheDict r)
  else raise (TypeError msg_not_supported).

(** [_parse_multifile]: the names of the children executed before it
    returns or raises, and the outcome. *)
Definition _parse_multifile (desired_type : pytype) (obj : PersistedObject)
    (parsing_plan_for_children : Dict.t ParsingPlan)
    (lazy_parsing background_parsing : bool) : list string * res collection :=
  if lazy_parsing && background_parsing then
    ([], raise (ValueError msg_lazy_and_background))
  else if lazy_parsing then
    ([], assemble desired_type
           (Lazily (LazyDictionary.__init__ (Dict.keys parsing_plan_for_children)
                      (loading_method_for parsing_plan_for_children))))
  else if background_parsing then
    ([], raise (ValueError msg_background))
  else
    match parse_children (Dict.sorted_items parsing_plan_for_children) [] [] with
    | (executed, inl e) => (executed, raise e)
    | (executed, inr d) => (executed, assemble desired_type (ParsedNow d))
    end.

End Collaborators.

End MultifileCollectionParser.

(** ** Sample objects *)

Module Samples.

Definition no_plan (msg : string) : pytype -> PersistedObject -> res ParsingPlan :=
  fun _ _ => raise (Exception msg).

Definition no_parse (msg : string) : pytype -> string -> string -> res pyobj :=
  fun _ _ _ => raise (Exception msg).

(** The extension that stands for "a folder" in [supported_exts]. *)
Definition MULTIFILE_EXT : string := "<multifile>".

(** One way the inherited queries can read [supported_exts]: some
    extension of a file, and the folder extension. *)
Definition exts_support_singlefile (exts : gset string) (_ : gset pytype) : bool :=
  (0 <? size (exts ∖ {[ MULTIFILE_EXT ]}))%nat.

Definition exts_support_multifile (exts : gset string) (_ : gset pytype) : bool :=
  bool_decide (MULTIFILE_EXT ∈ exts).

(** Parsers of files and folders at once. *)
Definition str_parser : AnyParser :=
  {| parser_key := 1;
     supported_types := {[ Cls "str" ]};
     supported_exts := {[ ".txt"; MULTIFILE_EXT ]};
     supports_singlefile := true;
     supports_multifile := true;
     create_parsing_plan := no_plan "str";
     _parse_singlefile := no_parse "str" |}.

Definition wide_parser : AnyParser :=
  {| parser_key := 2;
     supported_types := {[ Cls "str"; Cls "int" ]};
     supported_exts := {[ ".txt"; ".csv"; MULTIFILE_EXT ]};
     supports_singlefile := true;
     supports_multifile := true;
     create_parsing_plan := no_plan "wide";
     _parse_singlefile := no_parse "wide" |}.

Definition any_parser : AnyParser :=
  {| parser_key := 3;
     supported_types := {[ Any ]};
     supported_exts := {[ ".txt"; MULTIFILE_EXT ]};
     supports_singlefile := true;
     supports_multifile := true;
     create_parsing_plan := no_plan "any";
     _parse_singlefile := no_parse "any" |}.

(** A parser of [.json] files and a parser of folders, as
    [get_default_collection_parsers] lists them. *)
Definition json_parser : AnyParser :=
  {| parser_key := 4;
     supported_types := {[ Cls "dict"; Cls "list" ]};
     supported_exts := {[ ".json" ]};
     supports_singlefile := true;
     supports_multifile := false;
     create_parsing_plan := no_plan "json";
     _parse_singlefile := no_parse "json" |}.

Definition folder_parser : AnyParser :=
  {| parser_key := 5;
     supported_types := {[ Cls "Dict"; Cls "List"; Cls "Set"; Cls "Tuple" ]};
     supported_exts := {[ MULTIFILE_EXT ]};
     supports_singlefile := false;
     supports_multifile := true;
     create_parsing_plan := no_plan "folder";
     _parse_singlefile := no_parse "folder" |}.

(** Three candidates: [cand_A] builds a plan that fails when executed,
    [cand_B] fails to build a plan, [cand_C] builds a plan that parses. *)
Definition item : PersistedObject := Persisted "./data/item.txt" [].

Definition cand_A : AnyParser :=
  {| parser_key := 11;
     supported_types := {[ Cls "str" ]};
     supported_exts := {[ ".txt" ]};
     supports_singlefile := true;
     supports_multifile := false;
     create_parsing_plan := fun _ _ =>
       ret {| pp_parser := 11; pp_execute := raise (Exception "A cannot read") |};
     _parse_singlefile := no_parse "A" |}.

Definition cand_B : AnyParser :=
  {| parser_key := 12;
     supported_types := {[ Cls "str" ]};
     supported_exts := {[ ".txt" ]};
     supports_singlefile := true;
     supports_multifile := false;
     create_parsing_plan := fun _ _ => raise (ValueError "B cannot plan");
     _parse_singlefile := no_parse "B" |}.

Definition cand_C : AnyParser :=
  {| parser_key := 13;
     supported_types := {[ Cls "str" ]};
     supported_exts := {[ ".txt" ]};
     supports_singlefile := true;
     supports_multifile := false;
     create_parsing_plan := fun _ _ =>
       ret {| pp_parser := 13; pp_execute := ret (PyStr "parsed by C") |};
     _parse_singlefile := no_parse "C" |}.

(** A base parser of text files, a converter from [str] and their chain. *)
Definition text_parser : AnyParser :=
  {| parser_key := 21;
     supported_types := {[ Cls "str" ]};
     supported_exts := {[ ".txt" ]};
     supports_singlefile := true;
     supports_multifile := false;
     create_parsing_plan := no_plan "text";
     _parse_singlefile := fun ty path _ =>
       match ty with
       | Cls "str" => ret (PyStr path)
       | _ => raise (TypeError "text_parser reads str only")
       end |}.

Definition str_to_int : ParsingChain.Converter :=
  {| ParsingChain.from_type := Cls "str";
     ParsingChain.to_type := Cls "int";
     ParsingChain.is_able_to_convert := fun _ from _ => bool_decide (from = Cls "str");
     ParsingChain.convert := fun _ v =>
       match v with
       | PyStr "12" => ret (PyInt 12)
       | _ => raise (ValueError "invalid literal for int()")
       end |}.

Definition text_to_int : ParsingChain.t :=
  {| ParsingChain._base_parser := text_parser;
     ParsingChain._converter := str_to_int;
     ParsingChain.chain_supported_types := {[ Cls "int" ]};
     ParsingChain.chain_supported_exts := {[ ".txt" ]};
     ParsingChain.strict := true |}.

(** A folder of three files, a parser finder that knows text files only,
    and the reading of a tuple type and of a list type. *)
Definition folder : PersistedObject :=
  Persisted "./data/folder"
    [("b", Persisted "./data/folder/b.txt" []);
     ("c", Persisted "./data/folder/c.txt" []);
     ("a", Persisted "./data/folder/a.txt" [])].

Definition planning_parser : AnyParser :=
  {| parser_key := 22;
     supported_types := {[ Cls "str" ]};
     supported_exts := {[ ".txt" ]};
     supports_singlefile := true;
     supports_multifile := false;
     create_parsing_plan := fun _ obj =>
       match obj with
       | Persisted location _ =>
           ret {| pp_parser := 22; pp_execute := ret (PyStr location) |}
       end;
     _parse_singlefile := no_parse "planning" |}.

Definition finder (obj : PersistedObject) (ty : pytype) : res AnyParser :=
  match ty with
  | Cls "str" => ret planning_parser
  | _ => raise (Exception "no parser found")
  end.

Definition extract (ty : pytype)
  : res (MultifileCollectionParser.base_type * option pytype) :=
  match ty with
  | Cls "Tuple[str, str]" =>
      ret (MultifileCollectionParser.TupleTypes [Cls "str"; Cls "str"], None)
  | Cls "List[str]" => ret (MultifileCollectionParser.ItemType (Cls "str"), None)
  | _ => raise (TypeError "not a collection")
  end.

(** A lazy dictionary whose loading method counts its calls: the value
    loaded is the number of earlier calls. *)
Definition counting_loader (name : string) (n : nat) : res pyobj * nat :=
  (ret (PyInt (Z.of_nat n)), S n).

Definition lazy_ab : LazyDictionary.t pyobj nat :=
  LazyDictionary.__init__ ["a"; "b"] counting_loader.


End Samples.

(** ** More of the two files *)

(** [CascadingParser._create_parsing_plan]: the plan is given the list
    object of the cascade itself, no copy is made; [parser_list] is what
    that list holds when the plan is built, and [later], below, what the
    plan reads in it afterwards.  [self_key] is the identity of the
    cascade. *)
Module CascadingParserPlans.

Definition _create_parsing_plan (check_var_min_len : exn) (self : CascadingParser.t)
    (self_key : nat) (desired_type : pytype) (filesystem_object : PersistedObject)
  : list CascadingParsingPlan.call * res CascadingParsingPlan.t :=
  CascadingParsingPlan.__init__ check_var_min_len desired_type filesystem_object
    self_key (CascadingParser._parsers_list self).





End CascadingParserPlans.

(** [LazyDictionary.__repr__] and [__str__]. *)
Module LazyDictionaryRepr.
Import LazyDictionary.

Definition msg_not_loaded : string :=
  "LazyDictionary - not entirely loaded yet. Keys: ".

Section Repr.

Context {V W : Type}.

(** [dict.__repr__] on the inner dictionary and [str] on the list of keys:
    built-ins. *)
Variable repr_dict : gmap string V -> string.
Variable str_list : list string -> string.

Definition __repr__ (self : t V W) : string :=
  if (size (inner_dict self) =? __len__ self)%nat then repr_dict (inner_dict self)
  else String.append msg_not_loaded (str_list (lazyloadable_keys self)).

Definition __str__ (self : t V W) : string := __repr__ self.

(** Every cached key is one of the lazy-loadable keys. *)
Definition cache_within_keys (self : t V W) : Prop :=
  forall k, is_Some (inner_dict self !! k) -> k ∈ lazyloadable_keys self.

End Repr.

End LazyDictionaryRepr.

(** More sample objects. *)
Module MoreSamples.

(** A lazy dictionary whose loading method always fails, and counts. *)
Definition failing_loader (name : string) (n : nat) : res pyobj * nat :=
  (raise (Exception "cannot load"), S n).

Definition lazy_failing : LazyDictionary.t pyobj nat :=
  LazyDictionary.__init__ ["a"] failing_loader.

(** The plan that [__init__] returns for the candidates [cand_A] and
    [cand_B], which both fail: [cand_A] is active. *)
Definition plan_AB : CascadingParsingPlan.t :=
  {| CascadingParsingPlan.obj_type := Cls "str";
     CascadingParsingPlan.obj_on_fs_to_parse := Samples.item;
     CascadingParsingPlan.parser := 0;
     CascadingParsingPlan.parser_list := [Samples.cand_A; Samples.cand_B];
     CascadingParsingPlan.active_parser_idx := 0%Z;
     CascadingParsingPlan.active_parsing_plan :=
       Some {| pp_parser := 11; pp_execute := raise (Exception "A cannot read") |};
     CascadingParsingPlan.parsing_plan_creation_errors := ∅ |}.

(** The plans of three children, given in the order [b], [c], [a], and an
    [issubclass] that knows [List[str]] as a list. *)
Definition plans_bca : Dict.t ParsingPlan :=
  [("b", {| pp_parser := 22; pp_execute := ret (PyStr "B") |});
   ("c", {| pp_parser := 22; pp_execute := ret (PyStr "C") |});
   ("a", {| pp_parser := 22; pp_execute := ret (PyStr "A") |})].

Definition issubclass (ty cls : pytype) : bool :=
  match ty, cls with
  | Cls "List[str]", Cls "list" => true
  | _, _ => false
  end.

End MoreSamples.

(** [_KeySortedSequenceFacadeForDict], the class of the list and tuple
    facades, over the dictionary [results] of [_parse_multifile]. *)
Module KeySortedSequenceFacadeForDict.
Import MultifileCollectionParser.

(** What [__getitem__] raises: the [IndexError] of the list of the keys,
    or the exception of the inner dictionary. *)
Inductive error : Type :=
| IndexError
| FromDict (e : exn).

(** [sorted] on a list of strings. *)
Fixpoint insert_key (x : string) (l : list string) : list string :=
  match l with
  | [] => [x]
  | y :: l' => if String.leb x y then x :: l else y :: insert_key x l'
  end.

Definition sorted (l : list string) : list string := fold_right insert_key [] l.

(** [l[index]] for an integer: a negative index counts from the end. *)
Definition item {A} (l : list A) (index : Z) : option A :=
  let i := (if index <? 0 then index + Z.of_nat (length l) else index)%Z in
  if (i <? 0)%Z then None else l !! Z.to_nat i.

(** The facade of a collection, when it is a sequence facade. *)
Definition _inner_dict (c : collection) : option results :=
  match c with
  | KeySortedListFacadeForDict r | KeySortedTupleFacadeForDict r => Some r
  | SetFacadeForDict _ | TheDict _ => None
  end.

(** [self._inner_dict.keys()]: the keys of the [dict], the set of the
    lazy-loadable keys of a [LazyDictionary]. *)
Definition inner_keys (self : results) : list string :=
  match self with
  | ParsedNow d => Dict.keys d
  | Lazily d => elements (LazyDictionary.keys d)
  end.

Definition __len__ (self : results) : nat :=
  match self with
  | ParsedNow d => length d
  | Lazily d => LazyDictionary.__len__ d
  end.

(** [__getitem__] for an integer index; [executed] and [calls] are the
    logs of the [LazyDictionary]. *)
Definition __getitem__ (self : results) (index : Z) (executed calls : list string)
  : results * list string * list string * (error + pyobj) :=
  match item (sorted (inner_keys self)) index with
  | None => (self, executed, calls, inl IndexError)
  | Some key =>
      match self with
      | ParsedNow d =>
          match Dict.get d key with
          | Some v => (self, executed, calls, inr v)
          | None => (self, executed, calls, inl (FromDict (KeyError key)))
          end
      | Lazily d =>
          match LazyDictionary.__getitem__ d key executed calls with
          | (d', executed', calls', inr v) => (Lazily d', executed', calls', inr v)
          | (d', executed', calls', inl e) => (Lazily d', executed', calls', inl (FromDict e))
          end
      end
  end.

(** The order of [sorted] on strings. *)
Definition str_le (x y : string) : Prop := String.leb x y = true.

(** The two indices of Python for the element at position [i] of a
    sequence of [n] elements. *)
Definition index_of (n i : nat) (index : Z) : Prop :=
  index = Z.of_nat i \/ index = (Z.of_nat i - Z.of_nat n)%Z.

Definition out_of_range (n : nat) (index : Z) : Prop :=
  (index < - Z.of_nat n \/ Z.of_nat n <= index)%Z.

End KeySortedSequenceFacadeForDict.

(** * Properties *)

(** ** CascadingParser *)

Module CascadingParserFacts.
Import CascadingParser.

Section Facts.

Variable sf mf : gset string -> gset pytype -> bool.

(** [configured] is assigned in [__init__] only. *)
Lemma add_keeps_configured self parser :
  configured (add_parser_to_cascade sf mf self parser).1 = configured self.
Proof.
  unfold add_parser_to_cascade, configure.
  destruct (configured self) eqn:Hc; simpl;
    destruct (check_compliance _ _ _ _); simpl; auto.
Qed.

Lemma add_all_keeps_configured parsers : forall self self',
  add_all sf mf self parsers = inr self' -> configured self' = configured self.
Proof.
  induction parsers as [|p rest IH]; intros self self' H; simpl in H.
  - injection H as <-. reflexivity.
  - pose proof (add_keeps_configured self p) as Hk.
    destruct (add_parser_to_cascade sf mf self p) as [s1 [e|[]]]; [discriminate|].
    simpl in Hk. rewrite <- Hk. eauto.
Qed.

(** Every cascade that [__init__] returns has [configured] false. *)
Lemma init_not_configured parsers self :
  __init__ sf mf parsers = inr self -> configured self = false.
Proof.
  destruct parsers as [l|]; simpl.
  - intros H. apply add_all_keeps_configured in H. exact H.
  - intros H. injection H as <-. reflexivity.
Qed.

(** A call that raises leaves the list of candidates as it was. *)
Lemma add_raise_keeps_list self parser e :
  (add_parser_to_cascade sf mf self parser).2 = inl e ->
  _parsers_list (add_parser_to_cascade sf mf self parser).1 = _parsers_list self.
Proof.
  unfold add_parser_to_cascade.
  destruct (check_compliance _ _ _ _) as [e'|[]] eqn:Hc; simpl; [|discriminate].
  intros _. unfold configure. destruct (negb (configured self)); reflexivity.
Qed.

(** While [configured] is false the sets the checks read are those of
    the parser itself: only the two capability checks can fire, and they
    ask the inherited queries about the sets of the parser. *)
Lemma add_when_not_configured self parser :
  configured self = false ->
  add_parser_to_cascade sf mf self parser
  = let self' := {| configured := false;
                    _parsers_list := _parsers_list self;
                    self_supported_exts := supported_exts parser;
                    self_supported_types := supported_types parser |} in
    if sf (supported_exts parser) (supported_types parser)
       && negb (supports_singlefile parser)
    then (self', inl (ValueError msg_singlefile))
    else if mf (supported_exts parser) (supported_types parser)
            && negb (supports_multifile parser)
    then (self', inl (ValueError msg_multifile))
    else (append_parser self' parser, inr tt).
Proof.
  intros Hc.
  unfold add_parser_to_cascade, configure, check_compliance,
    self_supports_singlefile, self_supports_multifile.
  rewrite Hc. simpl.
  destruct (sf _ _ && negb _); [reflexivity|].
  destruct (mf _ _ && negb _); [reflexivity|].
  replace (bool_decide (Any ∉ supported_types parser)
           && bool_decide (Any ∈ supported_types parser)) with false
    by (repeat case_bool_decide; simpl; tauto).
  rewrite !difference_diag_L, size_empty. simpl.
  rewrite andb_false_r. reflexivity.
Qed.

(** A parser that declares [Any] is never refused for its types, whatever
    the cascade holds. *)
Lemma any_type_parser_passes_type_checks self parser :
  Any ∈ supported_types parser ->
  check_compliance sf mf self parser <> raise (ValueError msg_any_type) /\
  check_compliance sf mf self parser <> raise (ValueError msg_missing_types).
Proof.
  intros Hany. unfold check_compliance.
  rewrite (bool_decide_eq_false_2 (Any ∉ supported_types parser)) by tauto.
  simpl.
  destruct (self_supports_singlefile sf self && negb (supports_singlefile parser));
    [split; intros [= H]; discriminate H|].
  destruct (self_supports_multifile mf self && negb (supports_multifile parser));
    [split; intros [= H]; discriminate H|].
  destruct (0 <? size (self_supported_exts self ∖ supported_exts parser))%nat;
    split; intros [= H]; discriminate H.
Qed.

(** A parser of files and folders at once passes the two capability
    checks. *)
Lemma add_capable_when_not_configured self parser :
  configured self = false ->
  supports_singlefile parser = true ->
  supports_multifile parser = true ->
  add_parser_to_cascade sf mf self parser
  = (append_parser {| configured := false;
                      _parsers_list := _parsers_list self;
                      self_supported_exts := supported_exts parser;
                      self_supported_types := supported_types parser |} parser,
     inr tt).
Proof.
  intros Hc Hs Hm. rewrite add_when_not_configured by exact Hc.
  simpl. rewrite Hs, Hm. simpl. rewrite !andb_false_r. reflexivity.
Qed.

End Facts.

End CascadingParserFacts.

Module CascadingParserClaims.
Import CascadingParser CascadingParserFacts.

(** C3 (the code departs from the claim).  The claim: once the first
    candidate is added, the cascade advertises the supported types and
    extensions of that first candidate, and later successful adds leave
    them unchanged.  The code, on a fresh cascade that receives a parser of
    [{str}] / [{.txt, folder}] and then a parser of [{str, int}] /
    [{.txt, .csv, folder}]: both adds succeed and the cascade ends up
    advertising the sets of the second parser, not those of the first. *)
Theorem add_parser_to_cascade_overwrites_descriptor :
  forall sf mf : gset string -> gset pytype -> bool,
    let a1 := add_parser_to_cascade sf mf fresh Samples.str_parser in
    let a2 := add_parser_to_cascade sf mf a1.1 Samples.wide_parser in
    a1.2 = inr tt /\ a2.2 = inr tt /\
    _parsers_list a2.1 = [Samples.str_parser; Samples.wide_parser] /\
    self_supported_types a1.1 = supported_types Samples.str_parser /\
    self_supported_exts a1.1 = supported_exts Samples.str_parser /\
    self_supported_types a2.1 = supported_types Samples.wide_parser /\
    self_supported_exts a2.1 = supported_exts Samples.wide_parser /\
    self_supported_types a2.1 <> self_supported_types a1.1 /\
    self_supported_exts a2.1 <> self_supported_exts a1.1.
Proof.
  intros sf mf a1 a2.
  assert (H1 : a1 = (append_parser
                       {| configured := false; _parsers_list := [];
                          self_supported_exts := supported_exts Samples.str_parser;
                          self_supported_types := supported_types Samples.str_parser |}
                       Samples.str_parser, inr tt))
    by (apply add_capable_when_not_configured; reflexivity).
  assert (H2 : a2 = (append_parser
                       {| configured := false; _parsers_list := [Samples.str_parser];
                          self_supported_exts := supported_exts Samples.wide_parser;
                          self_supported_types := supported_types Samples.wide_parser |}
                       Samples.wide_parser, inr tt)).
  { subst a2. rewrite H1. apply add_capable_when_not_configured; reflexivity. }
  rewrite H2, H1. simpl.
  repeat split; try reflexivity.
  - intros Heq. assert (Hin : Cls "int" ∈ ({[ Cls "str" ]} : gset pytype)).
    { rewrite <- Heq. set_solver. }
    apply elem_of_singleton in Hin. discriminate.
  - intros Heq.
    assert (Hin : ".csv" ∈ ({[ ".txt"; Samples.MULTIFILE_EXT ]} : gset string)).
    { rewrite <- Heq. set_solver. }
    apply elem_of_union in Hin as [Hin|Hin]; apply elem_of_singleton in Hin; discriminate.
Qed.

(** C4 (the code departs from the claim).  The claim: a cascade configured
    for "any type" rejects a parser that supports a finite set of types
    only.  The code, on a cascade configured by a parser of [{Any}] that
    receives a parser of [{str}]: the add succeeds, and the cascade then
    advertises [{str}]. *)
Theorem add_parser_to_cascade_accepts_finite_after_any :
  forall sf mf : gset string -> gset pytype -> bool,
    let a1 := add_parser_to_cascade sf mf fresh Samples.any_parser in
    let a2 := add_parser_to_cascade sf mf a1.1 Samples.str_parser in
    a1.2 = inr tt /\
    Any ∈ self_supported_types a1.1 /\
    (Any ∉ supported_types Samples.str_parser) /\
    a2.2 = inr tt /\
    _parsers_list a2.1 = [Samples.any_parser; Samples.str_parser] /\
    self_supported_types a2.1 = {[ Cls "str" ]}.
Proof.
  intros sf mf a1 a2.
  assert (H1 : a1 = (append_parser
                       {| configured := false; _parsers_list := [];
                          self_supported_exts := supported_exts Samples.any_parser;
                          self_supported_types := supported_types Samples.any_parser |}
                       Samples.any_parser, inr tt))
    by (apply add_capable_when_not_configured; reflexivity).
  assert (H2 : a2 = (append_parser
                       {| configured := false; _parsers_list := [Samples.any_parser];
                          self_supported_exts := supported_exts Samples.str_parser;
                          self_supported_types := supported_types Samples.str_parser |}
                       Samples.str_parser, inr tt)).
  { subst a2. rewrite H1. apply add_capable_when_not_configured; reflexivity. }
  rewrite H2, H1. simpl.
  repeat split; try reflexivity.
  intros Hin. apply elem_of_singleton in Hin. discriminate.
Qed.

(** C5 (the code departs from the claim).  The claim: a cascade that
    supports single files raises when it is given a parser that does not.
    The code: whatever the inherited capability queries compute from the
    two sets, a cascade that answers "single files: yes" accepts a parser
    that answers "no" as soon as the parser answers the two queries as the
    inherited methods do on its own sets; the parser is appended. *)
Theorem add_parser_to_cascade_accepts_without_singlefile :
  forall (sf mf : gset string -> gset pytype -> bool) (self : t) (parser : AnyParser),
    configured self = false ->
    self_supports_singlefile sf self = true ->
    supports_singlefile parser = false ->
    supports_singlefile parser = sf (supported_exts parser) (supported_types parser) ->
    supports_multifile parser = mf (supported_exts parser) (supported_types parser) ->
    (add_parser_to_cascade sf mf self parser).2 = inr tt /\
    _parsers_list (add_parser_to_cascade sf mf self parser).1
    = _parsers_list self ++ [parser].
Proof.
  intros sf mf self parser Hc _ _ Hsf Hmf.
  rewrite add_when_not_configured by exact Hc. simpl.
  rewrite <- Hsf, <- Hmf, !andb_negb_r. simpl. split; reflexivity.
Qed.

(** The [.json] parser configures a cascade for single files; the folder
    parser, which does not support single files, is then accepted. *)
Lemma add_parser_to_cascade_accepts_without_singlefile_witness :
  let sf := Samples.exts_support_singlefile in
  let mf := Samples.exts_support_multifile in
  let self := (add_parser_to_cascade sf mf fresh Samples.json_parser).1 in
  self_supports_singlefile sf self = true /\
  supports_singlefile Samples.folder_parser = false /\
  (add_parser_to_cascade sf mf self Samples.folder_parser).2 = inr tt /\
  _parsers_list (add_parser_to_cascade sf mf self Samples.folder_parser).1
  = [Samples.json_parser; Samples.folder_parser].
Proof.
  intros sf mf self.
  split; [vm_compute; reflexivity|].
  split; [reflexivity|].
  apply (add_parser_to_cascade_accepts_without_singlefile sf mf self Samples.folder_parser);
    vm_compute; reflexivity.
Defined.

End CascadingParserClaims.

(** ** CascadingParsingPlan *)

Module CascadingParsingPlanFacts.
Import CascadingParsingPlan.

#[local] Arguments zrange : simpl never.
#[local] Arguments record_failures : simpl never.

Lemma record_failures_cons f q l m :
  record_failures f (q :: l) m
  = record_failures f l (match f q with Some (k, e) => <[k := e]> m | None => m end).
Proof. reflexivity. Qed.

Lemma zrange_S i n : zrange i (S n) = i :: zrange (i + 1) n.
Proof.
  unfold zrange. simpl. f_equal; [lia|].
  rewrite <- seq_shift, map_map. apply map_ext. intros k. lia.
Qed.


Lemma zrange_bounds i n x : x ∈ zrange i n -> (i <= x < i + Z.of_nat n)%Z.
Proof.
  unfold zrange. rewrite list_elem_of_In, in_map_iff.
  intros (k & <- & Hk). apply in_seq in Hk. lia.
Qed.

Lemma set_creation_errors_id self :
  set_creation_errors self (parsing_plan_creation_errors self) = self.
Proof. destruct self; reflexivity. Qed.

Lemma record_failures_app f l1 l2 m :
  record_failures f (l1 ++ l2) m = record_failures f l2 (record_failures f l1 m).
Proof. unfold record_failures. apply fold_left_app. Qed.

Lemma record_failures_none f l m :
  Forall (fun p => f p = None) l -> record_failures f l m = m.
Proof.
  intros H. revert m. induction H as [|p l Hp _ IH]; intros m; [reflexivity|].
  unfold record_failures in *. simpl. rewrite Hp. apply IH.
Qed.

(** *** The activation loop *)

(** The loop leaves through [return]: the candidates before the one that
    built a plan failed to, in order, and are in the dictionary. *)
Lemma activate_from_true rest : forall self i log self' log',
  activate_from self i rest log = (self', log', true) ->
  exists pre p pp post,
    rest = pre ++ p :: post /\
    Forall (fun q => is_Some (creation_failure (obj_type self) (obj_on_fs_to_parse self) q)) pre /\
    create_parsing_plan p (obj_type self) (obj_on_fs_to_parse self) = inr pp /\
    self' = set_active
              (set_creation_errors self
                 (record_failures (creation_failure (obj_type self) (obj_on_fs_to_parse self))
                    pre (parsing_plan_creation_errors self)))
              pp (i + Z.of_nat (length pre)) /\
    log' = log ++ map Create (zrange i (S (length pre))).
Proof.
  induction rest as [|q rest IH]; intros self i log self' log' H; simpl in H.
  - discriminate.
  - destruct (create_parsing_plan q (obj_type self) (obj_on_fs_to_parse self))
      as [e|pp] eqn:Hq.
    + apply IH in H. destruct H as (pre & p & pp & post & -> & Hpre & Hp & -> & ->).
      cbn [obj_type obj_on_fs_to_parse parsing_plan_creation_errors set_creation_errors] in *.
      exists (q :: pre), p, pp, post. split; [reflexivity|].
      split.
      { constructor; [|exact Hpre]. unfold creation_failure. rewrite Hq. eauto. }
      split; [exact Hp|]. split.
      { rewrite record_failures_cons.
        replace (creation_failure (obj_type self) (obj_on_fs_to_parse self) q)
          with (Some (parser_key q, e)) by (unfold creation_failure; rewrite Hq; reflexivity).
        unfold set_active, set_creation_errors; simpl. f_equal. lia. }
      { rewrite <- app_assoc. f_equal. rewrite (zrange_S i). reflexivity. }
    + injection H as <- <-.
      exists [], q, pp, rest. split; [reflexivity|]. split; [constructor|].
      split; [exact Hq|]. split.
      { simpl. rewrite set_creation_errors_id. f_equal. lia. }
      { simpl length. rewrite zrange_S. reflexivity. }
Qed.

(** The loop runs to its end: every candidate failed to build a plan. *)
Lemma activate_from_false rest : forall self i log self' log',
  activate_from self i rest log = (self', log', false) ->
  Forall (fun q => is_Some (creation_failure (obj_type self) (obj_on_fs_to_parse self) q)) rest /\
  self' = set_creation_errors self
            (record_failures (creation_failure (obj_type self) (obj_on_fs_to_parse self))
               rest (parsing_plan_creation_errors self)) /\
  log' = log ++ map Create (zrange i (length rest)).
Proof.
  induction rest as [|q rest IH]; intros self i log self' log' H; simpl in H.
  - injection H as <- <-. split; [constructor|]. split.
    + symmetry. apply set_creation_errors_id.
    + simpl. rewrite app_nil_r. reflexivity.
  - destruct (create_parsing_plan q (obj_type self) (obj_on_fs_to_parse self))
      as [e|pp] eqn:Hq; [|discriminate].
    apply IH in H. destruct H as (Hall & -> & ->).
    cbn [obj_type obj_on_fs_to_parse parsing_plan_creation_errors set_creation_errors] in *.
    split; [|split].
    + constructor; [|exact Hall]. unfold creation_failure. rewrite Hq. eauto.
    + rewrite record_failures_cons.
      replace (creation_failure (obj_type self) (obj_on_fs_to_parse self) q)
        with (Some (parser_key q, e)) by (unfold creation_failure; rewrite Hq; reflexivity).
      reflexivity.
    + simpl length. rewrite (zrange_S i), <- app_assoc. reflexivity.
Qed.

(** *** [activate_next_working_parser] *)

Lemma activate_next_guard self log :
  (-1 <= active_parser_idx self)%Z ->
  (if (active_parser_idx self + 1 <? Z.of_nat (length (parser_list self)))%Z then
     activate_from self (active_parser_idx self + 1)
       (drop (Z.to_nat (active_parser_idx self + 1)) (parser_list self)) log
   else (self, log, false))
  = activate_from self (active_parser_idx self + 1)
      (drop (Z.to_nat (active_parser_idx self + 1)) (parser_list self)) log.
Proof.
  intros Hidx. destruct (Z.ltb_spec (active_parser_idx self + 1)
                           (Z.of_nat (length (parser_list self)))) as [Hlt|Hge];
    [reflexivity|].
  rewrite drop_ge by lia. reflexivity.
Qed.

Lemma activate_next_ok self already log self' log' :
  (-1 <= active_parser_idx self)%Z ->
  activate_next_working_parser self already log = (self', log', inr tt) ->
  exists pre p pp post,
    drop (Z.to_nat (active_parser_idx self + 1)) (parser_list self) = pre ++ p :: post /\
    Forall (fun q => is_Some (creation_failure (obj_type self) (obj_on_fs_to_parse self) q)) pre /\
    create_parsing_plan p (obj_type self) (obj_on_fs_to_parse self) = inr pp /\
    self' = set_active
              (set_creation_errors self
                 (record_failures (creation_failure (obj_type self) (obj_on_fs_to_parse self))
                    pre (parsing_plan_creation_errors self)))
              pp (active_parser_idx self + 1 + Z.of_nat (length pre)) /\
    log' = log ++ map Create (zrange (active_parser_idx self + 1) (S (length pre))).
Proof.
  intros Hidx. unfold activate_next_working_parser.
  rewrite activate_next_guard by exact Hidx.
  destruct (activate_from _ _ _ _) as [[self1 log1] [|]] eqn:Hact.
  - intros H. injection H as <- <-. eapply activate_from_true. exact Hact.
  - destruct already; discriminate.
Qed.

Lemma activate_next_raise self already log self' log' err :
  (-1 <= active_parser_idx self)%Z ->
  activate_next_working_parser self already log = (self', log', inl err) ->
  let rest := drop (Z.to_nat (active_parser_idx self + 1)) (parser_list self) in
  let errs := record_failures (creation_failure (obj_type self) (obj_on_fs_to_parse self))
                rest (parsing_plan_creation_errors self) in
  Forall (fun q => is_Some (creation_failure (obj_type self) (obj_on_fs_to_parse self) q)) rest /\
  log' = log ++ map Create (zrange (active_parser_idx self + 1) (length rest)) /\
  match already with
  | None => err = CascadeError for_parsing_plan_creation errs /\
            self' = set_creation_errors self errs
  | Some execution_errors =>
      err = CascadeError for_execution (execution_errors ∪ errs) /\
      self' = set_creation_errors self (execution_errors ∪ errs)
  end.
Proof.
  intros Hidx. unfold activate_next_working_parser.
  rewrite activate_next_guard by exact Hidx.
  destruct (activate_from _ _ _ _) as [[self1 log1] [|]] eqn:Hact; [discriminate|].
  apply activate_from_false in Hact. destruct Hact as (Hall & -> & ->).
  intros H. cbv zeta. split; [exact Hall|].
  destruct already as [execution_errors|]; injection H as <- <- <-;
    (split; [reflexivity|]); split; reflexivity.
Qed.

(** *** The active candidate and the candidates after it *)

Lemma same_query_refl self : same_query self self.
Proof. repeat split. Qed.

Lemma same_query_trans s1 s2 s3 :
  same_query s1 s2 -> same_query s2 s3 -> same_query s1 s3.
Proof.
  intros (H1 & H2 & H3 & H4) (K1 & K2 & K3 & K4).
  repeat split; congruence.
Qed.

Lemma same_query_remaining_errors self errs :
  same_query self (set_creation_errors self errs).
Proof. repeat split. Qed.

Lemma remaining_activated self :
  activated self ->
  exists p pp,
    remaining self = p :: drop (Z.to_nat (active_parser_idx self + 1)) (parser_list self) /\
    create_parsing_plan p (obj_type self) (obj_on_fs_to_parse self) = inr pp /\
    active_parsing_plan self = Some pp.
Proof.
  intros (Hidx & p & pp & Hp & Hc & Ha). exists p, pp.
  split; [|split; assumption].
  unfold remaining. rewrite Z2Nat.inj_add by lia.
  change (Z.to_nat 1) with 1. rewrite Nat.add_1_r.
  apply drop_S. exact Hp.
Qed.

Lemma activated_after_ok self errs pre p pp post :
  (-1 <= active_parser_idx self)%Z ->
  drop (Z.to_nat (active_parser_idx self + 1)) (parser_list self) = pre ++ p :: post ->
  create_parsing_plan p (obj_type self) (obj_on_fs_to_parse self) = inr pp ->
  let self' := set_active (set_creation_errors self errs) pp
                 (active_parser_idx self + 1 + Z.of_nat (length pre)) in
  activated self' /\ remaining self' = p :: post /\ same_query self self'.
Proof.
  intros Hidx Hdrop Hc self'.
  assert (Hn : Z.to_nat (active_parser_idx self' ) =
               Z.to_nat (active_parser_idx self + 1) + length pre).
  { subst self'. simpl. lia. }
  assert (Hrem : remaining self' = p :: post).
  { unfold remaining. rewrite Hn. subst self'. simpl parser_list.
    rewrite <- drop_drop, Hdrop, drop_app_length. reflexivity. }
  split; [|split; [exact Hrem|repeat split]].
  split; [subst self'; simpl; lia|].
  exists p, pp. split; [|split; [exact Hc|reflexivity]].
  rewrite Hn. subst self'. simpl parser_list.
  rewrite <- lookup_drop, Hdrop.
  rewrite lookup_app_r by lia. rewrite Nat.sub_diag. reflexivity.
Qed.

Lemma activated_set_creation_errors self errs :
  activated self -> activated (set_creation_errors self errs).
Proof. intros H. exact H. Qed.

Lemma creation_failure_no_execution ty obj q :
  is_Some (creation_failure ty obj q) -> execution_failure ty obj q = None.
Proof.
  unfold creation_failure, execution_failure.
  destruct (create_parsing_plan q ty obj); [reflexivity|].
  intros [x Hx]. discriminate.
Qed.

Lemma creation_ok_no_failure ty obj q pp :
  create_parsing_plan q ty obj = inr pp -> creation_failure ty obj q = None.
Proof. unfold creation_failure. intros ->. reflexivity. Qed.

Lemma execution_failure_of ty obj q pp e :
  create_parsing_plan q ty obj = inr pp -> pp_execute pp = inl e ->
  execution_failure ty obj q = Some (pp_parser pp, e).
Proof. unfold execution_failure. intros -> ->. reflexivity. Qed.

Lemma record_execution_creation_failed ty obj l m :
  Forall (fun q => is_Some (creation_failure ty obj q)) l ->
  record_failures (execution_failure ty obj) l m = m.
Proof.
  intros H. apply record_failures_none.
  eapply Forall_impl; [exact H|]. intros q. apply creation_failure_no_execution.
Qed.

Lemma creation_failed_fails ty obj l :
  Forall (fun q => is_Some (creation_failure ty obj q)) l ->
  Forall (candidate_fails ty obj) l.
Proof.
  intros H. eapply Forall_impl; [exact H|]. intros q Hq. left. exact Hq.
Qed.

(** *** The loop of [execute] *)

(** With an iteration for each candidate from the active one on, the loop
    ends.  It returns the value of the first of these candidates that
    builds a plan which executes, and otherwise raises the [CascadeError]
    of all their failures. *)
Lemma execute_loop_spec : forall fuel self E log,
  activated self ->
  length (remaining self) <= fuel ->
  exists self' tr r,
    execute_loop fuel self E log = Some (self', log ++ tr, r) /\
    shape (active_parser_idx self) tr (active_parser_idx self') /\
    activated self' /\ same_query self self' /\
    (active_parser_idx self <= active_parser_idx self')%Z /\
    match r with
    | inl err =>
        let caught :=
          record_failures (execution_failure (obj_type self) (obj_on_fs_to_parse self))
            (remaining self) E
          ∪ record_failures (creation_failure (obj_type self) (obj_on_fs_to_parse self))
              (remaining self) (parsing_plan_creation_errors self) in
        err = CascadeError for_execution caught /\
        parsing_plan_creation_errors self' = caught /\
        Forall (candidate_fails (obj_type self) (obj_on_fs_to_parse self)) (remaining self)
    | inr v =>
        exists failed p pp post,
          remaining self = failed ++ p :: post /\
          Forall (candidate_fails (obj_type self) (obj_on_fs_to_parse self)) failed /\
          create_parsing_plan p (obj_type self) (obj_on_fs_to_parse self) = inr pp /\
          pp_execute pp = inr v /\
          active_parser_idx self' = (active_parser_idx self + Z.of_nat (length failed))%Z
    end.
Proof.
  induction fuel as [|fuel IH]; intros self E log Hact Hfuel;
    destruct (remaining_activated self Hact) as (p & pp & Hrem & Hc & Ha).
  { rewrite Hrem in Hfuel. simpl in Hfuel. lia. }
  assert (Hidx : (-1 <= active_parser_idx self)%Z) by (destruct Hact; lia).
  simpl. rewrite Ha. destruct (pp_execute pp) as [e|v] eqn:Hex.
  - destruct (activate_next_working_parser self
                (Some (<[pp_parser pp := e]> E))
                (log ++ [Execute (active_parser_idx self)]))
      as [[self1 log1] [err|[]]] eqn:Hnext.
    + apply activate_next_raise in Hnext; [|exact Hidx].
      destruct Hnext as (Hall & -> & -> & ->).
      eexists _, (Execute (active_parser_idx self) :: map Create (zrange _ _)), _.
      split; [rewrite <- app_assoc; reflexivity|].
      split; [apply (shape_last (active_parser_idx self))|].
      split; [apply activated_set_creation_errors; exact Hact|].
      split; [apply same_query_remaining_errors|].
      split; [simpl; lia|].
      cbv zeta. rewrite Hrem, !record_failures_cons.
      rewrite (execution_failure_of _ _ _ _ _ Hc Hex), (creation_ok_no_failure _ _ _ _ Hc).
      rewrite record_execution_creation_failed by exact Hall.
      split; [reflexivity|]. split; [reflexivity|].
      constructor.
      * right. rewrite (execution_failure_of _ _ _ _ _ Hc Hex). eauto.
      * apply creation_failed_fails. exact Hall.
    + apply activate_next_ok in Hnext; [|exact Hidx].
      destruct Hnext as (pre & p' & pp' & post & Hdrop & Hpre & Hc' & -> & ->).
      destruct (activated_after_ok self
                  (record_failures (creation_failure (obj_type self) (obj_on_fs_to_parse self))
                     pre (parsing_plan_creation_errors self))
                  pre p' pp' post Hidx Hdrop Hc') as (Hact' & Hrem' & Hsame).
      match goal with
      | |- context [execute_loop fuel ?s ?E' ?l] =>
          destruct (IH s E' l Hact') as (self2 & tr & r & Hrun & Hshape & Hact2 & Hsame2 & Hle & Hr)
      end.
      { rewrite Hrem'. rewrite Hrem, Hdrop in Hfuel. simpl in Hfuel.
        rewrite length_app in Hfuel. simpl in *. lia. }
      exists self2,
        (Execute (active_parser_idx self)
           :: map Create (zrange (active_parser_idx self + 1) (S (length pre))) ++ tr), r.
      split.
      { rewrite Hrun. f_equal. f_equal. f_equal.
        rewrite <- !app_assoc. reflexivity. }
      split; [apply shape_next; exact Hshape|].
      split; [exact Hact2|].
      split; [exact (same_query_trans _ _ _ Hsame Hsame2)|].
      split; [simpl in Hle; lia|].
      rewrite Hrem' in Hr. simpl in Hr.
      rewrite Hrem, Hdrop.
      destruct r as [err|v].
      * cbv zeta in *. destruct Hr as (-> & Herrs & Hfail).
        rewrite !record_failures_cons, !record_failures_app.
        rewrite (execution_failure_of _ _ _ _ _ Hc Hex), (creation_ok_no_failure _ _ _ _ Hc).
        rewrite (record_execution_creation_failed _ _ pre) by exact Hpre.
        split; [reflexivity|]. split; [exact Herrs|].
        constructor.
        { right. rewrite (execution_failure_of _ _ _ _ _ Hc Hex). eauto. }
        apply Forall_app. split; [apply creation_failed_fails; exact Hpre|exact Hfail].
      * destruct Hr as (failed & q & qq & post' & Hsplit & Hfailed & Hq & Hv & Hi).
        exists (p :: pre ++ failed), q, qq, post'.
        split; [rewrite Hsplit; simpl; rewrite <- app_assoc; reflexivity|].
        split.
        { constructor.
          - right. rewrite (execution_failure_of _ _ _ _ _ Hc Hex). eauto.
          - apply Forall_app. split; [apply creation_failed_fails; exact Hpre|exact Hfailed]. }
        split; [exact Hq|]. split; [exact Hv|].
        rewrite Hi. simpl. rewrite length_app. lia.
  - exists self, [Execute (active_parser_idx self)], (inr v).
    split; [reflexivity|].
    split; [apply (shape_last _ 0)|].
    split; [exact Hact|]. split; [apply same_query_refl|]. split; [lia|].
    exists [], p, pp, (drop (Z.to_nat (active_parser_idx self + 1)) (parser_list self)).
    split; [exact Hrem|]. split; [constructor|]. split; [exact Hc|]. split; [exact Hex|].
    simpl. lia.
Qed.

(** *** The log of one [execute] *)


Lemma elem_of_map_Create c i n :
  c ∈ map Create (zrange i n) -> exists k, c = Create k /\ (i <= k < i + Z.of_nat n)%Z.
Proof.
  rewrite list_elem_of_In, in_map_iff. intros (k & <- & Hk).
  exists k. split; [reflexivity|]. apply zrange_bounds, list_elem_of_In, Hk.
Qed.




Lemma map_Create_sorted n : forall i, StronglySorted call_lt (map Create (zrange i n)).
Proof.
  induction n as [|n IH]; intros i; [constructor|].
  rewrite zrange_S. simpl. constructor; [apply IH|].
  apply Forall_forall. intros c Hc. apply elem_of_map_Create in Hc.
  destruct Hc as (k & -> & Hk). simpl. lia.
Qed.

(** The indices in one log: plans are created after [i] only; the
    candidates executed lie between [i] and [i']. *)
Lemma shape_bounds i tr i' :
  shape i tr i' ->
  (i <= i')%Z /\
  Forall (fun c => match c with
                   | Create k => (i < k)%Z
                   | Execute j => (i <= j <= i')%Z
                   end) tr.
Proof.
  induction 1 as [i n|i n tr i' _ [IHle IH]].
  - split; [lia|]. constructor; [lia|].
    apply Forall_forall. intros c Hc. apply elem_of_map_Create in Hc.
    destruct Hc as (k & -> & Hk). lia.
  - split; [lia|]. constructor; [lia|].
    apply Forall_app. split.
    + apply Forall_forall. intros c Hc. apply elem_of_map_Create in Hc.
      destruct Hc as (k & -> & Hk). lia.
    + eapply Forall_impl; [exact IH|]. intros [k|j]; simpl; lia.
Qed.

Lemma shape_sorted i tr i' : shape i tr i' -> StronglySorted call_lt tr.
Proof.
  induction 1 as [i n|i n tr i' Hsh IH].
  - constructor; [apply map_Create_sorted|].
    apply Forall_forall. intros c Hc. apply elem_of_map_Create in Hc.
    destruct Hc as (k & -> & Hk). simpl. lia.
  - apply shape_bounds in Hsh. destruct Hsh as [_ Hb].
    rewrite Forall_forall in Hb.
    constructor.
    + apply StronglySorted_app_2; [|apply map_Create_sorted|exact IH].
      intros c1 c2 Hc1 Hc2. apply elem_of_map_Create in Hc1.
      destruct Hc1 as (k & -> & Hk). specialize (Hb c2 Hc2).
      destruct c2; simpl; lia.
    + apply Forall_app. split; apply Forall_forall; intros c Hc.
      * apply elem_of_map_Create in Hc. destruct Hc as (k & -> & Hk). simpl. lia.
      * specialize (Hb c Hc). destruct c; simpl; lia.
Qed.




(** *** [execute], [__init__] and several [execute] in a row *)

Lemma remaining_length self : length (remaining self) <= length (parser_list self).
Proof. unfold remaining. rewrite length_drop. lia. Qed.

Lemma execute_spec self log :
  activated self ->
  exists self' tr r,
    execute self log = Some (self', log ++ tr, r) /\
    shape (active_parser_idx self) tr (active_parser_idx self') /\
    activated self' /\ same_query self self' /\
    match r with
    | inl err =>
        let caught :=
          record_failures (execution_failure (obj_type self) (obj_on_fs_to_parse self))
            (remaining self) ∅
          ∪ record_failures (creation_failure (obj_type self) (obj_on_fs_to_parse self))
              (remaining self) (parsing_plan_creation_errors self) in
        err = CascadeError for_execution caught /\
        parsing_plan_creation_errors self' = caught /\
        Forall (candidate_fails (obj_type self) (obj_on_fs_to_parse self)) (remaining self)
    | inr v =>
        exists failed p pp post,
          remaining self = failed ++ p :: post /\
          Forall (candidate_fails (obj_type self) (obj_on_fs_to_parse self)) failed /\
          create_parsing_plan p (obj_type self) (obj_on_fs_to_parse self) = inr pp /\
          pp_execute pp = inr v /\
          active_parser_idx self' = (active_parser_idx self + Z.of_nat (length failed))%Z
    end.
Proof.
  intros Hact.
  destruct (execute_loop_spec (S (length (parser_list self))) self ∅ log Hact)
    as (self' & tr & r & Hrun & Hshape & Hact' & Hsame & _ & Hr).
  { pose proof (remaining_length self). lia. }
  exists self', tr, r. split; [|tauto].
  unfold execute. destruct Hact as (_ & p & pp & _ & _ & ->). exact Hrun.
Qed.

Lemma init_spec cv ty obj parser l :
  l <> [] ->
  match __init__ cv ty obj parser l with
  | (log, inr self) =>
      exists pre p pp post,
        l = pre ++ p :: post /\
        Forall (fun q => is_Some (creation_failure ty obj q)) pre /\
        create_parsing_plan p ty obj = inr pp /\
        activated self /\ remaining self = p :: post /\
        parser_list self = l /\ obj_type self = ty /\ obj_on_fs_to_parse self = obj /\
        parsing_plan_creation_errors self = record_failures (creation_failure ty obj) pre ∅ /\
        active_parser_idx self = Z.of_nat (length pre) /\
        log = map Create (zrange 0 (S (length pre)))
  | (log, inl err) =>
      Forall (fun q => is_Some (creation_failure ty obj q)) l /\
      err = CascadeError for_parsing_plan_creation
              (record_failures (creation_failure ty obj) l ∅) /\
      log = map Create (zrange 0 (length l))
  end.
Proof.
  intros Hne. unfold __init__. destruct l as [|q l]; [congruence|].
  set (self0 := {| obj_type := ty; obj_on_fs_to_parse := obj; parser := parser;
                   parser_list := q :: l; active_parser_idx := (-1)%Z;
                   active_parsing_plan := None;
                   parsing_plan_creation_errors := ∅ |}).
  assert (Hidx : (-1 <= active_parser_idx self0)%Z) by (simpl; lia).
  destruct (activate_next_working_parser self0 None []) as [[self' log'] [err|[]]] eqn:Hnext.
  - apply activate_next_raise in Hnext; [|exact Hidx].
    destruct Hnext as (Hall & -> & -> & _). unfold raise. subst self0.
    split; [exact Hall|]. split; reflexivity.
  - apply activate_next_ok in Hnext; [|exact Hidx].
    destruct Hnext as (pre & p & pp & post & Hdrop & Hpre & Hc & -> & ->).
    destruct (activated_after_ok self0
                (record_failures (creation_failure ty obj) pre ∅)
                pre p pp post Hidx Hdrop Hc) as (Hact & Hrem & _).
    unfold ret. exists pre, p, pp, post.
    split; [exact Hdrop|]. split; [exact Hpre|]. split; [exact Hc|].
    split; [exact Hact|]. split; [exact Hrem|].
    split; [reflexivity|]. split; [reflexivity|]. split; [reflexivity|].
    split; [reflexivity|]. split; [simpl; lia|reflexivity].
Qed.

Lemma StronglySorted_weaken {A} (R S : A -> A -> Prop) l :
  (forall x y, R x y -> S x y) -> StronglySorted R l -> StronglySorted S l.
Proof.
  intros HRS. induction 1 as [|x l _ IH Hx]; constructor; [exact IH|].
  eapply Forall_impl; [exact Hx|]. intros y. apply HRS.
Qed.

Lemma call_lt_executed_then_created c1 c2 : call_lt c1 c2 -> executed_then_created c1 c2.
Proof. destruct c1, c2; simpl; auto. Qed.

(** Several [execute] in a row: each ends; the active index does not go
    back; no plan is created for a candidate at or before one that has
    been executed. *)
Lemma execute_times_spec n : forall self log,
  activated self ->
  exists self' tr,
    execute_times n self log = Some (self', log ++ tr) /\
    activated self' /\ same_query self self' /\
    (active_parser_idx self <= active_parser_idx self')%Z /\
    Forall (fun c => match c with
                     | Create k => (active_parser_idx self < k)%Z
                     | Execute j => (active_parser_idx self <= j <= active_parser_idx self')%Z
                     end) tr /\
    StronglySorted executed_then_created tr.
Proof.
  induction n as [|n IH]; intros self log Hact.
  - exists self, []. rewrite app_nil_r.
    split; [reflexivity|]. split; [exact Hact|]. split; [apply same_query_refl|].
    split; [lia|]. split; constructor.
  - destruct (execute_spec self log Hact)
      as (self1 & tr1 & r & Hrun & Hshape & Hact1 & Hsame1 & _).
    destruct (IH self1 (log ++ tr1) Hact1)
      as (self2 & tr2 & Hrun2 & Hact2 & Hsame2 & Hle2 & Hb2 & Hs2).
    pose proof (shape_bounds _ _ _ Hshape) as [Hle1 Hb1].
    exists self2, (tr1 ++ tr2).
    split; [simpl; rewrite Hrun, Hrun2, <- app_assoc; reflexivity|].
    split; [exact Hact2|].
    split; [exact (same_query_trans _ _ _ Hsame1 Hsame2)|].
    split; [lia|]. split.
    + apply Forall_app. split.
      * eapply Forall_impl; [exact Hb1|]. intros [k|j]; simpl; lia.
      * eapply Forall_impl; [exact Hb2|]. intros [k|j]; simpl; lia.
    + apply StronglySorted_app_2.
      * intros c1 c2 Hc1 Hc2.
        rewrite Forall_forall in Hb1, Hb2.
        specialize (Hb1 c1 Hc1). specialize (Hb2 c2 Hc2).
        destruct c1, c2; simpl; auto. lia.
      * eapply StronglySorted_weaken; [apply call_lt_executed_then_created|].
        eapply shape_sorted. exact Hshape.
      * exact Hs2.
Qed.

(** *** What the dictionaries of failures hold *)

Lemma record_failures_lookup_notin f l : forall m k,
  k ∉ (omap f l).*1 -> record_failures f l m !! k = m !! k.
Proof.
  induction l as [|q l IH]; intros m k Hk; [reflexivity|].
  rewrite record_failures_cons. simpl in Hk.
  destruct (f q) as [[k' e']|]; simpl in Hk.
  - rewrite not_elem_of_cons in Hk. destruct Hk as [Hne Hk].
    rewrite IH by exact Hk. apply lookup_insert_ne. congruence.
  - apply IH. exact Hk.
Qed.

Lemma record_failures_lookup f l : forall m k e,
  NoDup (omap f l).*1 -> (k, e) ∈ omap f l ->
  record_failures f l m !! k = Some e.
Proof.
  induction l as [|q l IH]; intros m k e Hnd Hin; simpl in Hin.
  - apply elem_of_nil in Hin. contradiction.
  - rewrite record_failures_cons. simpl in Hnd.
    destruct (f q) as [[k' e']|]; simpl in Hnd.
    + apply NoDup_cons in Hnd. destruct Hnd as [Hk' Hnd].
      apply elem_of_cons in Hin. destruct Hin as [Heq|Hin].
      * injection Heq as -> ->.
        rewrite record_failures_lookup_notin by exact Hk'.
        apply lookup_insert_eq.
      * apply IH; assumption.
    + apply IH; assumption.
Qed.


(** With distinct keys, the union of the two dictionaries holds every
    failure. *)
Lemma union_holds_every_failure ty obj l k e :
  NoDup (failures ty obj l).*1 ->
  (k, e) ∈ failures ty obj l ->
  (record_failures (execution_failure ty obj) l ∅
   ∪ record_failures (creation_failure ty obj) l ∅) !! k = Some e.
Proof.
  unfold failures. rewrite fmap_app. intros Hnd Hin.
  apply NoDup_app in Hnd. destruct Hnd as (Hc & Hdisj & Hx).
  apply elem_of_app in Hin. destruct Hin as [Hin|Hin].
  - rewrite lookup_union_r.
    + apply record_failures_lookup; assumption.
    + rewrite record_failures_lookup_notin; [apply lookup_empty|].
      apply Hdisj. apply (list_elem_of_fmap_2 fst) in Hin. exact Hin.
  - apply lookup_union_Some_l. apply record_failures_lookup; assumption.
Qed.

End CascadingParsingPlanFacts.

Module CascadingParsingPlanClaims.
Import CascadingParsingPlan CascadingParsingPlanFacts.




(** C2.  A plan is built for a list of at least one candidate and then
    executed.  [__init__] returns a plan or raises a [CascadeError]; it
    raises only when every candidate failed to build a plan.  [execute] on
    the plan ends; it returns the value of the first candidate that builds
    a plan which executes, or raises a [CascadeError], and raises only when
    every candidate of the list failed.  The dictionary of the error is the
    union of the dictionary of the failures of [create_parsing_plan] and
    of the dictionary of the failures of [execute] over the whole list
    (the second one is empty when [__init__] raises); when the failures
    are recorded under distinct parsers, it holds every one of them. *)
Theorem cascade_raises_the_aggregate_only
    (check_var_min_len : exn) (ty : pytype) (obj : PersistedObject)
    (parser : nat) (l : list AnyParser) :
  1 <= length l ->
  let created := record_failures (creation_failure ty obj) l ∅ in
  let executed := record_failures (execution_failure ty obj) l ∅ in
  (NoDup (failures ty obj l).*1 ->
   forall k e, (k, e) ∈ failures ty obj l -> (executed ∪ created) !! k = Some e) /\
  match __init__ check_var_min_len ty obj parser l with
  | (_, inl err) =>
      err = CascadeError for_parsing_plan_creation (executed ∪ created) /\
      executed = ∅ /\
      Forall (fun p => is_Some (creation_failure ty obj p)) l
  | (log0, inr self) =>
      exists self' log' r,
        execute self log0 = Some (self', log', r) /\
        match r with
        | inl err =>
            err = CascadeError for_execution (executed ∪ created) /\
            Forall (candidate_fails ty obj) l
        | inr v =>
            exists failed p pp post,
              l = failed ++ p :: post /\
              Forall (candidate_fails ty obj) failed /\
              create_parsing_plan p ty obj = inr pp /\
              pp_execute pp = inr v
        end
  end.
Proof.
  intros Hlen created executed.
  split; [intros Hnd k e Hin; apply union_holds_every_failure; assumption|].
  assert (Hne : l <> []) by (destruct l; [simpl in Hlen; lia|discriminate]).
  pose proof (init_spec check_var_min_len ty obj parser l Hne) as Hinit.
  destruct (__init__ check_var_min_len ty obj parser l) as [log0 [err|self]].
  - destruct Hinit as (Hall & -> & _).
    assert (Hex : executed = ∅)
      by (apply record_execution_creation_failed; exact Hall).
    rewrite Hex, (left_id_L ∅ (∪)). auto.
  - destruct Hinit as (pre & p & pp & post & -> & Hpre & Hc & Hact & Hrem & Hl & Hty
                       & Hobj & Herrs & _ & _).
    destruct (execute_spec self log0 Hact)
      as (self' & tr & r & Hrun & _ & _ & _ & Hr).
    exists self', (log0 ++ tr), r. split; [exact Hrun|].
    rewrite Hty, Hobj, Hrem, Herrs in Hr.
    destruct r as [err|v].
    + cbv zeta in Hr. destruct Hr as (-> & _ & Hfail). split.
      * f_equal. subst created executed.
        rewrite !record_failures_app.
        rewrite (record_execution_creation_failed _ _ pre) by exact Hpre.
        reflexivity.
      * apply Forall_app. split; [apply creation_failed_fails; exact Hpre|exact Hfail].
    + destruct Hr as (failed & q & qq & post' & Hsplit & Hfailed & Hq & Hv & _).
      exists (pre ++ failed), q, qq, post'.
      split; [rewrite Hsplit, <- app_assoc; reflexivity|].
      split; [|split; assumption].
      apply Forall_app. split; [apply creation_failed_fails; exact Hpre|exact Hfailed].
Qed.

(** The candidates [cand_A] and [cand_B]: [execute] raises one
    [CascadeError] that holds the failure of each. *)
Lemma cascade_raises_the_aggregate_only_witness :
  1 <= length [Samples.cand_A; Samples.cand_B] /\
  (exists self log0,
     __init__ (ValueError "parser_list") (Cls "str") Samples.item 0
       [Samples.cand_A; Samples.cand_B] = (log0, inr self) /\
     (snd <$> execute self log0)
     = Some (inl (CascadeError for_execution
                    ({[ 11 := Exception "A cannot read" ]}
                     ∪ {[ 12 := ValueError "B cannot plan" ]})))) /\
  forall k e,
    (k, e) ∈ failures (Cls "str") Samples.item [Samples.cand_A; Samples.cand_B] ->
    (record_failures (execution_failure (Cls "str") Samples.item)
       [Samples.cand_A; Samples.cand_B] ∅
     ∪ record_failures (creation_failure (Cls "str") Samples.item)
         [Samples.cand_A; Samples.cand_B] ∅) !! k = Some e.
Proof.
  assert (Hlen : 1 <= length [Samples.cand_A; Samples.cand_B]) by (simpl; lia).
  split; [exact Hlen|].
  split; [eexists _, _; split; reflexivity|].
  destruct (cascade_raises_the_aggregate_only (ValueError "parser_list") (Cls "str")
              Samples.item 0 [Samples.cand_A; Samples.cand_B] Hlen) as [Hall _].
  apply Hall. vm_compute.
  constructor; [intros Hin; apply list_elem_of_singleton in Hin; discriminate|].
  constructor; [apply not_elem_of_nil|constructor].
Defined.

End CascadingParsingPlanClaims.

(** ** ParsingChain *)

Module ParsingChainClaims.
Import ParsingChain.

(** C6.  A base parser that supports [Any] is always rejected.  Without
    [base_parser_chosen_dest_type], a base parser that supports two types
    or more is rejected with a [ValueError]: the one that asks for
    [base_parser_chosen_dest_type], unless [Any] is among the types, which
    is rejected first.  With a chosen type, and a base parser that does
    not support [Any], construction succeeds as soon as the converter
    accepts the chosen type as its source under the given strictness; the
    chain then supports the destination type of the converter and the
    extensions of the base parser. *)
Theorem chain_construction_checks
    (base_parser : AnyParser) (converter : Converter) (strict : bool) :
  (forall chosen,
     Any ∈ supported_types base_parser ->
     __init__ base_parser converter strict chosen = raise (ValueError msg_pointless)) /\
  (2 <= size (supported_types base_parser) ->
   __init__ base_parser converter strict None
   = raise (ValueError (if bool_decide (Any ∈ supported_types base_parser)
                        then msg_pointless else msg_several))) /\
  (forall chosen,
     Any ∉ supported_types base_parser ->
     is_able_to_convert converter strict chosen None = true ->
     __init__ base_parser converter strict (Some chosen)
     = ret {| _base_parser := base_parser;
              _converter := converter;
              chain_supported_types := {[ to_type converter ]};
              chain_supported_exts := supported_exts base_parser;
              strict := strict |}).
Proof.
  split; [|split].
  - intros chosen Hany. unfold __init__.
    rewrite bool_decide_eq_true_2 by exact Hany. reflexivity.
  - intros Hsize. unfold __init__.
    destruct (bool_decide (Any ∈ supported_types base_parser)); [reflexivity|].
    simpl. destruct (Nat.eqb_spec (size (supported_types base_parser)) 1) as [Heq|Hne].
    + lia.
    + reflexivity.
  - intros chosen Hany Hable. unfold __init__.
    rewrite bool_decide_eq_false_2 by exact Hany.
    simpl. rewrite Hable. reflexivity.
Qed.

(** The [.json] parser supports [dict] and [list]; the parser of [Any]
    supports the wildcard; the converter [str_to_int] accepts [str]. *)
Lemma chain_construction_checks_witness :
  __init__ Samples.any_parser Samples.str_to_int true (Some (Cls "str"))
  = raise (ValueError msg_pointless) /\
  __init__ Samples.json_parser Samples.str_to_int true None
  = raise (ValueError msg_several) /\
  __init__ Samples.text_parser Samples.str_to_int true (Some (Cls "str"))
  = ret Samples.text_to_int.
Proof.
  split; [|split].
  - apply (proj1 (chain_construction_checks Samples.any_parser Samples.str_to_int true)
             (Some (Cls "str"))).
    vm_compute. reflexivity.
  - apply (proj1 (proj2 (chain_construction_checks Samples.json_parser
                           Samples.str_to_int true))).
    vm_compute. lia.
  - apply (proj2 (proj2 (chain_construction_checks Samples.text_parser
                           Samples.str_to_int true)) (Cls "str")).
    + vm_compute. intros H. discriminate H.
    + vm_compute. reflexivity.
Defined.

(** C7.  [_parse_singlefile] first asks the base parser for the source type
    of the converter, [converter.from_type], whatever the desired type.
    When the base parser raises, the same exception leaves the chain and
    the converter is not called.  When it returns a value, the converter
    is called with the desired type and that value, and what the converter
    returns or raises is what the chain returns or raises. *)
Theorem parse_singlefile_chains_base_and_converter
    (self : t) (desired_type : pytype) (file_path encoding : string) :
  let asked := BaseParseSinglefile (from_type (_converter self)) file_path encoding in
  let parsed := _parse_singlefile (_base_parser self)
                  (from_type (_converter self)) file_path encoding in
  head (parse_singlefile self desired_type file_path encoding).1 = Some asked /\
  (forall e, parsed = inl e ->
     parse_singlefile self desired_type file_path encoding = ([asked], inl e)) /\
  (forall first, parsed = inr first ->
     parse_singlefile self desired_type file_path encoding
     = ([asked; Convert desired_type first],
        convert (_converter self) desired_type first)).
Proof.
  intros asked parsed. unfold parse_singlefile. fold parsed. fold asked.
  destruct parsed as [e|first]; simpl.
  - split; [reflexivity|]. split; [intros e' [= <-]; reflexivity|discriminate].
  - split; [reflexivity|]. split; [discriminate|intros f [= <-]; reflexivity].
Qed.

(** The chain of [text_parser] and [str_to_int]: the base parser is asked
    for [str], not for [int]; the failure of the converter on one file and
    the failure of the base parser are raised as they are. *)
Lemma parse_singlefile_chains_base_and_converter_witness :
  parse_singlefile Samples.text_to_int (Cls "int") "12" "utf-8"
  = ([BaseParseSinglefile (Cls "str") "12" "utf-8"; Convert (Cls "int") (PyStr "12")],
     ret (PyInt 12)) /\
  parse_singlefile Samples.text_to_int (Cls "int") "x" "utf-8"
  = ([BaseParseSinglefile (Cls "str") "x" "utf-8"; Convert (Cls "int") (PyStr "x")],
     raise (ValueError "invalid literal for int()")).
Proof.
  split.
  - apply (parse_singlefile_chains_base_and_converter Samples.text_to_int
             (Cls "int") "12" "utf-8"). reflexivity.
  - apply (parse_singlefile_chains_base_and_converter Samples.text_to_int
             (Cls "int") "x" "utf-8"). reflexivity.
Defined.

End ParsingChainClaims.

(** ** Multifile collections *)

Module DictFacts.
Import Dict.

Lemma get_set_eq {V} (d : t V) k v : get (set d k v) k = Some v.
Proof.
  induction d as [|[k' v'] d IH]; simpl.
  - rewrite String.eqb_refl. reflexivity.
  - destruct (String.eqb_spec k' k) as [->|Hne]; simpl.
    + rewrite String.eqb_refl. reflexivity.
    + destruct (String.eqb_spec k' k); [contradiction|exact IH].
Qed.

Lemma get_set_ne {V} (d : t V) k k' v : k <> k' -> get (set d k v) k' = get d k'.
Proof.
  intros Hne. induction d as [|[k0 v0] d IH]; simpl.
  - destruct (String.eqb_spec k k'); [contradiction|reflexivity].
  - destruct (String.eqb_spec k0 k) as [->|Hk0]; simpl.
    + destruct (String.eqb_spec k k'); [contradiction|reflexivity].
    + destruct (String.eqb_spec k0 k'); [reflexivity|exact IH].
Qed.

Lemma insert_sorted_perm {V} (x : string * V) l : insert_sorted x l ≡ₚ x :: l.
Proof.
  induction l as [|y l IH]; simpl; [reflexivity|].
  destruct (String.leb (fst x) (fst y)); [reflexivity|].
  rewrite IH. apply Permutation_swap.
Qed.

Lemma sorted_items_perm {V} (d : t V) : sorted_items d ≡ₚ d.
Proof.
  unfold sorted_items. induction d as [|x d IH]; simpl; [reflexivity|].
  rewrite insert_sorted_perm, IH. reflexivity.
Qed.

Lemma sorted_items_length {V} (d : t V) : length (sorted_items d) = length d.
Proof. apply Permutation_length, sorted_items_perm. Qed.

Lemma insert_sorted_hd {V} (x a : string * V) l :
  key_le a x -> HdRel key_le a l -> HdRel key_le a (insert_sorted x l).
Proof.
  intros Hax Hal. destruct l as [|y l]; simpl; [constructor; exact Hax|].
  destruct (String.leb (fst x) (fst y)); constructor; [exact Hax|].
  inversion Hal; assumption.
Qed.

Lemma insert_sorted_sorted {V} (x : string * V) l :
  Sorted key_le l -> Sorted key_le (insert_sorted x l).
Proof.
  induction 1 as [|y l Hs IH Hhd]; simpl; [repeat constructor|].
  destruct (String.leb (fst x) (fst y)) eqn:Hxy.
  - constructor; [constructor; assumption|]. constructor. exact Hxy.
  - constructor; [exact IH|]. apply insert_sorted_hd; [|exact Hhd].
    unfold key_le. destruct (String.leb_total (fst x) (fst y)) as [H|H]; [congruence|exact H].
Qed.

Lemma sorted_items_sorted {V} (d : t V) : Sorted key_le (sorted_items d).
Proof.
  unfold sorted_items. induction d as [|x d IH]; simpl; [constructor|].
  apply insert_sorted_sorted, IH.
Qed.

End DictFacts.

Module MultifileCollectionParserFacts.
Import MultifileCollectionParser DictFacts.

Section Facts.

Variable finder : PersistedObject -> pytype -> res AnyParser.

Lemma child_plan_cases child typ :
  child_plan finder child typ
  = match finder child typ with
    | inl e => inl e
    | inr child_parser => create_parsing_plan child_parser typ child
    end.
Proof. reflexivity. Qed.

(** The children are asked in the order of [todo], up to the first one
    that fails. *)
Lemma build_children_prefix todo : forall plans log,
  exists rest, log ++ calls_for todo = (build_children finder todo plans log).1 ++ rest.
Proof.
  induction todo as [|[[name child] typ] todo IH]; intros plans log; simpl.
  - exists []. reflexivity.
  - destruct (finder child typ) as [e|child_parser]; simpl.
    + eexists. rewrite <- app_assoc. reflexivity.
    + destruct (create_parsing_plan child_parser typ child) as [e|pp]; simpl.
      * eexists. rewrite <- !app_assoc. reflexivity.
      * destruct (IH (Dict.set plans name pp)
                    ((log ++ [BuildParser name typ]) ++ [CreatePlan name typ]))
          as [rest Hrest].
        exists rest. rewrite <- Hrest, <- !app_assoc. reflexivity.
Qed.

(** The loop returns: every child was asked, in order, and has its plan
    in the dictionary. *)
Lemma build_children_ok todo : forall plans log log' plans',
  build_children finder todo plans log = (log', inr plans') ->
  log' = log ++ calls_for todo /\
  (forall name, name ∉ names todo -> Dict.get plans' name = Dict.get plans name) /\
  (NoDup (names todo) ->
   forall name child typ,
     (name, child, typ) ∈ todo ->
     exists pp, child_plan finder child typ = inr pp /\ Dict.get plans' name = Some pp).
Proof.
  induction todo as [|[[name child] typ] todo IH]; intros plans log log' plans' H;
    simpl in H.
  - injection H as <- <-. split; [rewrite app_nil_r; reflexivity|].
    split; [reflexivity|]. intros _ name child typ Hin.
    apply elem_of_nil in Hin. contradiction.
  - destruct (finder child typ) as [e|child_parser] eqn:Hf; [discriminate|].
    destruct (create_parsing_plan child_parser typ child) as [e|pp] eqn:Hc;
      [discriminate|].
    apply IH in H. destruct H as (-> & Hother & Hall).
    split; [simpl; rewrite <- !app_assoc; reflexivity|]. split.
    + intros n Hn. simpl in Hn. apply not_elem_of_cons in Hn as [Hne Hn].
      rewrite Hother by exact Hn. apply get_set_ne. congruence.
    + intros Hnd n c ty Hin. simpl in Hnd. apply NoDup_cons in Hnd as [Hname Hnd].
      apply elem_of_cons in Hin as [Heq|Hin].
      * injection Heq as -> -> ->. exists pp. split.
        { rewrite child_plan_cases, Hf. exact Hc. }
        rewrite Hother by exact Hname. apply get_set_eq.
      * apply Hall; assumption.
Qed.

(** The loop raises: the exception is that of the first child, in the
    order of [todo], whose plan cannot be built. *)
Lemma build_children_raise todo : forall plans log log' e,
  build_children finder todo plans log = (log', inl e) ->
  exists done name child typ rest,
    todo = done ++ (name, child, typ) :: rest /\
    Forall (fun x => is_raise (child_plan finder (snd (fst x)) (snd x)) = false) done /\
    child_plan finder child typ = inl e.
Proof.
  induction todo as [|[[name child] typ] todo IH]; intros plans log log' e H;
    simpl in H; [discriminate|].
  destruct (finder child typ) as [e'|child_parser] eqn:Hf.
  - injection H as <- <-. exists [], name, child, typ, todo.
    split; [reflexivity|]. split; [constructor|]. rewrite child_plan_cases, Hf. reflexivity.
  - destruct (create_parsing_plan child_parser typ child) as [e'|pp] eqn:Hc.
    + injection H as <- <-. exists [], name, child, typ, todo.
      split; [reflexivity|]. split; [constructor|].
      rewrite child_plan_cases, Hf. exact Hc.
    + apply IH in H. destruct H as (done & n & c & ty & rest & -> & Hdone & He).
      exists ((name, child, typ) :: done), n, c, ty, rest.
      split; [reflexivity|]. split; [|exact He].
      constructor; [|exact Hdone]. simpl. rewrite child_plan_cases, Hf, Hc. reflexivity.
Qed.

Lemma combine_repeat {A} (l : list A) (typ : pytype) :
  combine l (repeat typ (length l)) = map (fun c => (c, typ)) l.
Proof. induction l as [|x l IH]; simpl; [reflexivity|]. f_equal. exact IH. Qed.

Lemma names_with_type (items : list (string * PersistedObject)) (typ : pytype) :
  names (map (fun c => (c, typ)) items) = Dict.keys items.
Proof. unfold names, Dict.keys. rewrite map_map. reflexivity. Qed.

End Facts.

End MultifileCollectionParserFacts.

Module MultifileCollectionParserClaims.
Import MultifileCollectionParser DictFacts MultifileCollectionParserFacts.

(** C8.  With [lazy_parsing] and [background_parsing] both true,
    [_parse_multifile] raises the [ValueError] that says so, and no child
    plan has been executed.  With [background_parsing] alone it raises the
    [ValueError] "Background parsing is not yet supported", and no child
    plan has been executed either. *)
Theorem parse_multifile_rejects_background
    (issubclass : pytype -> pytype -> bool) (desired_type : pytype)
    (obj : PersistedObject) (parsing_plan_for_children : Dict.t ParsingPlan) :
  _parse_multifile issubclass desired_type obj parsing_plan_for_children true true
  = ([], raise (ValueError msg_lazy_and_background)) /\
  _parse_multifile issubclass desired_type obj parsing_plan_for_children false true
  = ([], raise (ValueError msg_background)).
Proof. split; reflexivity. Qed.


(** X14.  The children are taken in the order of their names.  For a
    tuple of types whose length is not the number of children,
    [_get_parsing_plan_for_multifile_children] asks no child: what leaves
    is the exception that the call of
    [FolderAndFilesStructureError.create_for_multifile_tuple] with the
    object, the length of the tuple and the number of children returns,
    or the one that this call raises.  With as many children as types it
    builds the plans of the children paired with the types of the tuple.
    For one item type, each child is paired with that type: the children
    are asked in the order of their names, up to the first whose plan
    cannot be built; when the plan of every child can be built the call
    returns, every child has been asked, and the result holds the plan of
    each child under its name. *)
Theorem children_plans_follow_collection_type
    (extract : pytype -> res (base_type * option pytype))
    (finder : PersistedObject -> pytype -> res AnyParser)
    (create_for_multifile_tuple : PersistedObject -> nat -> nat -> res exn)
    (obj_on_fs : PersistedObject) (desired_type : pytype) :
  let children := get_multifile_children obj_on_fs in
  let sorted := Dict.sorted_items children in
  let result :=
    _get_parsing_plan_for_multifile_children extract finder create_for_multifile_tuple
      obj_on_fs desired_type in
  (Sorted Dict.key_le sorted /\ sorted ≡ₚ children) /\
  (forall typs key_type,
     extract desired_type = inr (TupleTypes typs, key_type) ->
     (length children <> length typs ->
      result
      = ([], raise match create_for_multifile_tuple obj_on_fs (length typs)
                           (length children) with
                   | inr returned => returned
                   | inl raised => raised
                   end)) /\
     (length children = length typs ->
      result = build_children finder (combine sorted typs) [] [])) /\
  (forall typ key_type,
     extract desired_type = inr (ItemType typ, key_type) ->
     let todo := map (fun c => (c, typ)) sorted in
     subtypes_for create_for_multifile_tuple obj_on_fs (ItemType typ)
     = ret (repeat typ (length children)) /\
     result = build_children finder todo [] [] /\
     (exists rest, calls_for todo = result.1 ++ rest) /\
     (forall e, result.2 = inl e ->
        exists done name child rest,
          sorted = done ++ (name, child) :: rest /\
          Forall (fun c => is_raise (child_plan finder (snd c) typ) = false) done /\
          child_plan finder child typ = inl e) /\
     (forall plans, result.2 = inr plans ->
        result.1 = calls_for todo /\
        (NoDup (Dict.keys children) ->
         forall name child, (name, child) ∈ children ->
           exists pp, child_plan finder child typ = inr pp /\
                      Dict.get plans name = Some pp))).
Proof.
  intros children sorted result.
  split; [split; [apply sorted_items_sorted|apply sorted_items_perm]|].
  split.
  - intros typs key_type Hex. subst result.
    unfold _get_parsing_plan_for_multifile_children, subtypes_for. rewrite Hex.
    fold children. split; intros Hlen.
    + apply Nat.eqb_neq in Hlen. rewrite Hlen. simpl.
      destruct (create_for_multifile_tuple obj_on_fs (length typs) (length children));
        reflexivity.
    + apply Nat.eqb_eq in Hlen. rewrite Hlen. reflexivity.
  - intros typ key_type Hex todo.
    assert (Hres : result = build_children finder todo [] []).
    { subst result todo. unfold _get_parsing_plan_for_multifile_children, subtypes_for.
      rewrite Hex. fold children. fold sorted. simpl.
      rewrite <- (sorted_items_length children). fold sorted.
      rewrite combine_repeat. reflexivity. }
    split; [reflexivity|]. split; [exact Hres|]. rewrite Hres.
    split; [apply (build_children_prefix finder todo [] [])|]. split.
    + intros e He.
      destruct (build_children finder todo [] []) as [log' r] eqn:Hb. simpl in He. subst r.
      apply build_children_raise in Hb.
      destruct Hb as (done & name & child & ty & rest & Htodo & Hdone & Hfail).
      subst todo. apply map_eq_app in Htodo.
      destruct Htodo as (done' & rest' & Hs & Hd & Hr).
      destruct rest' as [|[name' child'] rest']; [discriminate|].
      simpl in Hr. injection Hr as -> -> -> Hr.
      exists done', name, child, rest'. split; [exact Hs|]. split; [|exact Hfail].
      subst done. rewrite Forall_map in Hdone. exact Hdone.
    + intros plans Hp.
      destruct (build_children finder todo [] []) as [log' r] eqn:Hb. simpl in Hp. subst r.
      apply build_children_ok in Hb. destruct Hb as (-> & _ & Hall).
      split; [reflexivity|]. intros Hnd name child Hin.
      apply (Hall) with (child := child) (typ := typ).
      * subst todo. rewrite names_with_type. unfold Dict.keys.
        assert (Hp : map fst sorted ≡ₚ map fst children)
          by (apply Permutation_map, sorted_items_perm).
        rewrite Hp. exact Hnd.
      * subst todo. apply list_elem_of_In, in_map_iff. exists (name, child).
        split; [reflexivity|]. apply list_elem_of_In.
        subst sorted. rewrite (sorted_items_perm children). exact Hin.
Qed.

(** The folder of [b], [c], [a]: for a tuple type of two items no child
    is asked, whatever the factory is; for a list of [str] the children
    are asked in the order [a], [b], [c] and each has its plan. *)
Lemma children_plans_follow_collection_type_witness :
  (forall create,
     (_get_parsing_plan_for_multifile_children Samples.extract Samples.finder create
        Samples.folder (Cls "Tuple[str, str]")).1 = [] /\
     is_raise (_get_parsing_plan_for_multifile_children Samples.extract Samples.finder
                 create Samples.folder (Cls "Tuple[str, str]")).2 = true) /\
  (forall create,
     (_get_parsing_plan_for_multifile_children Samples.extract Samples.finder create
        Samples.folder (Cls "List[str]")).1
     = [BuildParser "a" (Cls "str"); CreatePlan "a" (Cls "str");
        BuildParser "b" (Cls "str"); CreatePlan "b" (Cls "str");
        BuildParser "c" (Cls "str"); CreatePlan "c" (Cls "str")] /\
     match (_get_parsing_plan_for_multifile_children Samples.extract Samples.finder
              create Samples.folder (Cls "List[str]")).2 with
     | inr plans => Dict.keys plans = ["a"; "b"; "c"]
     | inl _ => False
     end).
Proof.
  split; intros create.
  - destruct (children_plans_follow_collection_type Samples.extract Samples.finder
                create Samples.folder (Cls "Tuple[str, str]")) as (_ & Htuple & _).
    destruct (Htuple [Cls "str"; Cls "str"] None eq_refl) as [Hne _].
    rewrite Hne by (simpl; lia). split; reflexivity.
  - destruct (children_plans_follow_collection_type Samples.extract Samples.finder
                create Samples.folder (Cls "List[str]")) as (_ & _ & Hitem).
    destruct (Hitem (Cls "str") None eq_refl) as (_ & _ & _ & _ & Hok).
    split; [|reflexivity].
    refine (proj1 (Hok [("a", _); ("b", _); ("c", _)] _)). reflexivity.
Defined.

End MultifileCollectionParserClaims.

(** ** LazyDictionary *)

Module LazyDictionaryFacts.
Import LazyDictionary.

Section Facts.

Context {V W : Type}.
Implicit Types (self : t V W) (w : W) (calls : list string).

(** One lookup: the list of keys and the loading method stay; the log
    grows by the name looked up, or not at all. *)
Lemma getitem_frame self name w calls :
  let '(self', w', calls', r) := __getitem__ self name w calls in
  lazyloadable_keys self' = lazyloadable_keys self /\
  loading_method self' = loading_method self /\
  (calls' = calls \/ (calls' = calls ++ [name] /\ inner_dict self !! name = None)).
Proof.
  unfold __getitem__.
  destruct (inner_dict self !! name) as [v|] eqn:Hin; [auto|].
  destruct (bool_decide (name ∈ lazyloadable_keys self)); [|auto].
  destruct (loading_method self name w) as [[e|val] w']; auto.
Qed.

(** One lookup keeps what is cached. *)
Lemma getitem_keeps self name w calls k v :
  inner_dict self !! k = Some v ->
  inner_dict (__getitem__ self name w calls).1.1.1 !! k = Some v.
Proof.
  intros Hk. unfold __getitem__.
  destruct (inner_dict self !! name) as [v'|] eqn:Hin; [exact Hk|].
  destruct (bool_decide (name ∈ lazyloadable_keys self)); [|exact Hk].
  destruct (loading_method self name w) as [[e|val] w']; [exact Hk|].
  simpl. rewrite lookup_insert_ne; [exact Hk|]. congruence.
Qed.

(** A lookup of a cached key returns the cached value and changes
    nothing. *)
Lemma getitem_cached self k v w calls :
  inner_dict self !! k = Some v ->
  __getitem__ self k w calls = (self, w, calls, inr v).
Proof. intros Hk. unfold __getitem__. rewrite Hk. reflexivity. Qed.

(** A lookup that returns leaves the value in the cache. *)
Lemma getitem_caches self name w calls self' w' calls' v :
  __getitem__ self name w calls = (self', w', calls', inr v) ->
  inner_dict self' !! name = Some v.
Proof.
  unfold __getitem__.
  destruct (inner_dict self !! name) as [v'|] eqn:Hin.
  - intros [= <- <- <- <-]. exact Hin.
  - destruct (bool_decide (name ∈ lazyloadable_keys self)); [|discriminate].
    destruct (loading_method self name w) as [[e|val] w1]; [discriminate|].
    intros [= <- <- <- <-]. simpl. apply lookup_insert_eq.
Qed.

(** Lookups after a key is cached: the loading method is not called for
    it, and each lookup of the key returns the cached value. *)
Lemma getitems_cached names : forall self w calls self' w' calls' rs k v,
  inner_dict self !! k = Some v ->
  getitems self names w calls = (self', w', calls', rs) ->
  exists new, calls' = calls ++ new /\ (k ∉ new) /\
    forall i, names !! i = Some k -> rs !! i = Some (inr v).
Proof.
  induction names as [|name names IH]; intros self w calls self' w' calls' rs k v Hk H;
    simpl in H.
  - injection H as <- <- <- <-. exists []. rewrite app_nil_r.
    split; [reflexivity|]. split; [apply not_elem_of_nil|]. intros i Hi. discriminate.
  - pose proof (getitem_frame self name w calls) as Hfr.
    pose proof (getitem_keeps self name w calls k v Hk) as Hkeep.
    destruct (__getitem__ self name w calls) as [[[self1 w1] calls1] r] eqn:Hget.
    simpl in Hkeep.
    destruct (getitems self1 names w1 calls1) as [[[self2 w2] calls2] rs2] eqn:Hrest.
    injection H as <- <- <- <-.
    destruct (IH _ _ _ _ _ _ _ k v Hkeep Hrest) as (new & -> & Hnew & Hrs).
    destruct Hfr as (_ & _ & Hcalls).
    assert (Hhead : exists new1, calls1 = calls ++ new1 /\ (k ∉ new1)).
    { destruct Hcalls as [->|[-> Hnone]].
      - exists []. rewrite app_nil_r. split; [reflexivity|apply not_elem_of_nil].
      - exists [name]. split; [reflexivity|]. intros Hin.
        apply list_elem_of_singleton in Hin. subst name. congruence. }
    destruct Hhead as (new1 & -> & Hnew1).
    exists (new1 ++ new). split; [rewrite app_assoc; reflexivity|]. split.
    + rewrite elem_of_app. tauto.
    + intros [|i] Hi; simpl in Hi |- *.
      * injection Hi as ->. rewrite (getitem_cached _ _ _ _ _ Hk) in Hget.
        injection Hget as _ _ _ <-. reflexivity.
      * apply Hrs. exact Hi.
Qed.

Lemma getitems_frame names : forall self w calls self' w' calls' rs,
  getitems self names w calls = (self', w', calls', rs) ->
  lazyloadable_keys self' = lazyloadable_keys self /\ length rs = length names.
Proof.
  induction names as [|name names IH]; intros self w calls self' w' calls' rs H;
    simpl in H.
  - injection H as <- <- <- <-. split; reflexivity.
  - pose proof (getitem_frame self name w calls) as Hfr.
    destruct (__getitem__ self name w calls) as [[[self1 w1] calls1] r].
    destruct (getitems self1 names w1 calls1) as [[[self2 w2] calls2] rs2] eqn:Hrest.
    injection H as <- <- <- <-. apply IH in Hrest. destruct Hrest as [Hk Hl].
    destruct Hfr as (Hk1 & _). split; [congruence|simpl; congruence].
Qed.

(** Over any lookups, the loading method is called at most once for a
    key whose lookups all return. *)
Lemma getitems_load_once names : forall self w calls self' w' calls' rs,
  getitems self names w calls = (self', w', calls', rs) ->
  exists new, calls' = calls ++ new /\
    forall k,
      (forall i r, names !! i = Some k -> rs !! i = Some r -> is_raise r = false) ->
      count_occ string_dec new k <= 1.
Proof.
  induction names as [|name names IH]; intros self w calls self' w' calls' rs H;
    simpl in H.
  - injection H as <- <- <- <-. exists []. rewrite app_nil_r.
    split; [reflexivity|]. intros k _. simpl. lia.
  - pose proof (getitem_frame self name w calls) as Hfr.
    destruct (__getitem__ self name w calls) as [[[self1 w1] calls1] r] eqn:Hget.
    destruct (getitems self1 names w1 calls1) as [[[self2 w2] calls2] rs2] eqn:Hrest.
    injection H as <- <- <- <-.
    destruct (IH _ _ _ _ _ _ _ Hrest) as (new & -> & Hcount).
    destruct Hfr as (_ & _ & [->|[-> Hnone]]).
    + exists new. split; [reflexivity|]. intros k Hok. apply Hcount.
      intros i r' Hi Hr. apply (Hok (S i) r'); assumption.
    + exists ([name] ++ new). split; [rewrite app_assoc; reflexivity|].
      intros k Hok. rewrite count_occ_app. simpl.
      destruct (string_dec name k) as [->|Hne].
      * assert (Hr : is_raise r = false) by (apply (Hok 0 r); reflexivity).
        destruct r as [e|v]; [discriminate|].
        apply getitem_caches in Hget.
        destruct (getitems_cached _ _ _ _ _ _ _ _ k v Hget Hrest)
          as (new' & Heq & Hnotin & _).
        apply app_inv_head in Heq. subst new'.
        rewrite (proj1 (count_occ_not_In string_dec new k)); [lia|].
        rewrite <- list_elem_of_In. exact Hnotin.
      * assert (Hc : count_occ string_dec new k <= 1).
        { apply Hcount. intros i r' Hi Hr. apply (Hok (S i) r'); assumption. }
        lia.
Qed.

(** The first lookup of a lazy-loadable key that is not cached calls the
    loading method with it. *)
Lemma getitem_loads self name w calls :
  inner_dict self !! name = None ->
  name ∈ lazyloadable_keys self ->
  __getitem__ self name w calls
  = match loading_method self name w with
    | (inr val, w') => (set_inner self (<[name := val]> (inner_dict self)), w',
                        calls ++ [name], inr val)
    | (inl e, w') => (self, w', calls ++ [name], inl e)
    end.
Proof.
  intros Hnone Hkey. unfold __getitem__. rewrite Hnone.
  rewrite bool_decide_eq_true_2 by exact Hkey.
  destruct (loading_method self name w) as [[e|val] w']; reflexivity.
Qed.

(** A lookup of another name leaves a key out of the cache. *)
Lemma getitem_keeps_none self name w calls k :
  name <> k ->
  inner_dict self !! k = None ->
  inner_dict (__getitem__ self name w calls).1.1.1 !! k = None.
Proof.
  intros Hne Hk. unfold __getitem__.
  destruct (inner_dict self !! name) as [v'|] eqn:Hin; [exact Hk|].
  destruct (bool_decide (name ∈ lazyloadable_keys self)); [|exact Hk].
  destruct (loading_method self name w) as [[e|val] w']; [exact Hk|].
  simpl. rewrite lookup_insert_ne; [exact Hk|exact Hne].
Qed.

(** Over any lookups, the loading method is called for every
    lazy-loadable key that is looked up and was not cached. *)
Lemma getitems_loads names : forall self w calls self' w' calls' rs k,
  getitems self names w calls = (self', w', calls', rs) ->
  k ∈ names -> k ∈ lazyloadable_keys self -> inner_dict self !! k = None ->
  exists new, calls' = calls ++ new /\ k ∈ new.
Proof.
  induction names as [|name names IH]; intros self w calls self' w' calls' rs k H Hin Hkey Hnone;
    simpl in H.
  - apply elem_of_nil in Hin. contradiction.
  - pose proof (getitem_frame self name w calls) as Hfr.
    pose proof (getitem_keeps_none self name w calls k) as Hkeep.
    pose proof (getitem_loads self name w calls) as Hload.
    destruct (__getitem__ self name w calls) as [[[self1 w1] calls1] r] eqn:Hget.
    simpl in Hkeep.
    destruct (getitems self1 names w1 calls1) as [[[self2 w2] calls2] rs2] eqn:Hrest.
    injection H as <- <- <- <-.
    destruct (getitems_load_once _ _ _ _ _ _ _ _ Hrest) as (new2 & Hnew2 & _).
    destruct (string_dec name k) as [->|Hne].
    + specialize (Hload Hnone Hkey).
      assert (Hc1 : calls1 = calls ++ [k]).
      { destruct (loading_method self k w) as [[e|val] w0];
          injection Hload as _ _ -> _; reflexivity. }
      exists ([k] ++ new2). split; [rewrite app_assoc, <- Hc1; exact Hnew2|].
      apply elem_of_app. left. apply list_elem_of_singleton. reflexivity.
    + apply elem_of_cons in Hin as [Heq|Hin]; [congruence|].
      destruct Hfr as (Hkeys & _ & Hcalls).
      destruct (IH _ _ _ _ _ _ _ k Hrest Hin) as (new & Hnew & Hk).
      { rewrite Hkeys. exact Hkey. }
      { apply Hkeep; assumption. }
      destruct Hcalls as [->|[-> _]].
      * exists new. split; assumption.
      * exists ([name] ++ new). split; [rewrite app_assoc; exact Hnew|].
        apply elem_of_app. right. exact Hk.
Qed.

(** Once a lookup of a key has returned a value, the later lookups of
    the key return that value. *)
Lemma getitems_stable names : forall self w calls self' w' calls' rs i j k v,
  getitems self names w calls = (self', w', calls', rs) ->
  i < j ->
  names !! i = Some k -> rs !! i = Some (inr v) ->
  names !! j = Some k -> rs !! j = Some (inr v).
Proof.
  induction names as [|name names IH];
    intros self w calls self' w' calls' rs i j k v H Hij Hi Hri Hj; [discriminate|].
  simpl in H.
  destruct (__getitem__ self name w calls) as [[[self1 w1] calls1] r] eqn:Hget.
  destruct (getitems self1 names w1 calls1) as [[[self2 w2] calls2] rs2] eqn:Hrest.
  injection H as <- <- <- <-.
  destruct j as [|j]; [lia|]. destruct i as [|i]; simpl in *.
  - injection Hi as ->. injection Hri as ->.
    apply getitem_caches in Hget.
    destruct (getitems_cached _ _ _ _ _ _ _ _ k v Hget Hrest) as (_ & _ & _ & Hrs).
    apply Hrs. exact Hj.
  - eapply (IH _ _ _ _ _ _ _ i j); eauto. lia.
Qed.

End Facts.

End LazyDictionaryFacts.

Module LazyDictionaryClaims.
Import LazyDictionary LazyDictionaryFacts.

(** C10.  A fresh [LazyDictionary] has nothing loaded, and [keys()],
    [len()] and iteration give the lazy-loadable keys; they do so for every
    dictionary, and lookups do not change them.  The first lookup of a
    lazy-loadable key that is not cached calls [loading_method] with the
    key, once; when the call returns a value, the lookup returns that
    value and caches it, and the next lookup of the key returns it again
    and calls nothing.  Over any sequence of lookups: [loading_method] is
    called for every lazy-loadable key that is looked up and was not
    cached, and at most once for a key whose lookups all return, so once
    for such a key; it is not called for a key that is cached, whose
    lookups return the cached value; and once a lookup of a key has
    returned a value, every later lookup of the key returns that value. *)
Theorem lazy_dictionary_loads_each_key_once {V W : Type}
    (self : t V W) (names : list string) (w : W) (calls : list string) :
  (forall keys_list loader,
     inner_dict (__init__ keys_list loader) = (∅ : gmap string V) /\
     keys (__init__ keys_list loader) = list_to_set keys_list /\
     __len__ (__init__ keys_list loader) = length keys_list /\
     __iter__ (__init__ (W := W) keys_list loader) = keys_list) /\
  (forall name val w1,
     inner_dict self !! name = None ->
     name ∈ lazyloadable_keys self ->
     loading_method self name w = (inr val, w1) ->
     let loaded := set_inner self (<[name := val]> (inner_dict self)) in
     __getitem__ self name w calls = (loaded, w1, calls ++ [name], inr val) /\
     inner_dict loaded !! name = Some val /\
     forall w2 calls2,
       __getitem__ loaded name w2 calls2 = (loaded, w2, calls2, inr val)) /\
  let '(self', w', calls', rs) := getitems self names w calls in
  (keys self = list_to_set (lazyloadable_keys self) /\
   __len__ self = length (lazyloadable_keys self) /\
   __iter__ self = lazyloadable_keys self /\
   keys self' = keys self /\ __len__ self' = __len__ self /\
   __iter__ self' = __iter__ self) /\
  exists new,
    calls' = calls ++ new /\
    (forall k,
       (forall i r, names !! i = Some k -> rs !! i = Some r -> is_raise r = false) ->
       count_occ string_dec new k <= 1) /\
    (forall k v,
       inner_dict self !! k = Some v ->
       (k ∉ new) /\ forall i, names !! i = Some k -> rs !! i = Some (inr v)) /\
    (forall i j k v,
       i < j ->
       names !! i = Some k -> rs !! i = Some (inr v) ->
       names !! j = Some k -> rs !! j = Some (inr v)) /\
    (forall k,
       k ∈ names -> k ∈ lazyloadable_keys self -> inner_dict self !! k = None ->
       k ∈ new /\
       ((forall i r, names !! i = Some k -> rs !! i = Some r -> is_raise r = false) ->
        count_occ string_dec new k = 1)).
Proof.
  split; [intros keys_list loader; repeat split|].
  split.
  { intros name val w1 Hnone Hkey Hload loaded.
    assert (Hin : inner_dict loaded !! name = Some val) by apply lookup_insert_eq.
    split; [rewrite (getitem_loads self name w calls Hnone Hkey), Hload; reflexivity|].
    split; [exact Hin|]. intros w2 calls2. apply getitem_cached. exact Hin. }
  destruct (getitems self names w calls) as [[[self' w'] calls'] rs] eqn:Hrun.
  pose proof (getitems_frame _ _ _ _ _ _ _ _ Hrun) as [Hkeys _].
  split.
  { unfold keys, __len__, __iter__. rewrite Hkeys. repeat split. }
  destruct (getitems_load_once _ _ _ _ _ _ _ _ Hrun) as (new & Hnew & Hcount).
  exists new. split; [exact Hnew|]. split; [exact Hcount|]. split.
  - intros k v Hk.
    destruct (getitems_cached _ _ _ _ _ _ _ _ k v Hk Hrun) as (new' & Heq & Hnotin & Hrs).
    rewrite Hnew in Heq. apply app_inv_head in Heq. subst new'. split; assumption.
  - split; [intros i j k v; apply (getitems_stable _ _ _ _ _ _ _ _ _ _ _ _ Hrun)|].
    intros k Hin Hkey Hnone.
    destruct (getitems_loads _ _ _ _ _ _ _ _ k Hrun Hin Hkey Hnone) as (new' & Heq & Hk).
    rewrite Hnew in Heq. apply app_inv_head in Heq. subst new'.
    split; [exact Hk|]. intros Hok. specialize (Hcount k Hok).
    apply list_elem_of_In in Hk. apply (count_occ_In string_dec) in Hk. lia.
Qed.

(** The loading method of [lazy_ab] returns the number of its earlier
    calls: the lookups of [a], [b], [a] call it for [a] and [b] once, and
    the second lookup of [a] returns the value of the first. *)
Lemma lazy_dictionary_loads_each_key_once_witness :
  getitems Samples.lazy_ab ["a"; "b"; "a"] 0 []
  = (set_inner Samples.lazy_ab (<["b" := PyInt 1]> (<["a" := PyInt 0]> ∅)), 2,
     ["a"; "b"], [inr (PyInt 0); inr (PyInt 1); inr (PyInt 0)]) /\
  count_occ string_dec ["a"; "b"] "a" <= 1 /\
  keys Samples.lazy_ab = {[ "a"; "b" ]} /\
  __len__ Samples.lazy_ab = 2.
Proof.
  pose proof (lazy_dictionary_loads_each_key_once Samples.lazy_ab ["a"; "b"; "a"] 0 [])
    as (_ & _ & H).
  assert (Hrun : getitems Samples.lazy_ab ["a"; "b"; "a"] 0 []
                 = (set_inner Samples.lazy_ab (<["b" := PyInt 1]> (<["a" := PyInt 0]> ∅)), 2,
                    ["a"; "b"], [inr (PyInt 0); inr (PyInt 1); inr (PyInt 0)]))
    by reflexivity.
  rewrite Hrun in H. destruct H as (_ & new & Hnew & Hcount & _).
  simpl in Hnew. subst new.
  split; [exact Hrun|]. split.
  - apply Hcount. intros [|[|[|i]]] r Hi Hr; simpl in Hi, Hr;
      try discriminate; injection Hr as <-; reflexivity.
  - split; [|reflexivity]. vm_compute. reflexivity.
Defined.

End LazyDictionaryClaims.

(** * More properties *)

(** ** The cascade and its plans *)

Module CascadingParserMore.
Import CascadingParser CascadingParserFacts.

Section More.

Variable sf mf : gset string -> gset pytype -> bool.

Lemma add_outcome self parser :
  (exists e, (add_parser_to_cascade sf mf self parser).2 = inl e /\
             _parsers_list (add_parser_to_cascade sf mf self parser).1 = _parsers_list self) \/
  ((add_parser_to_cascade sf mf self parser).2 = inr tt /\
   _parsers_list (add_parser_to_cascade sf mf self parser).1 = _parsers_list self ++ [parser]).
Proof.
  destruct ((add_parser_to_cascade sf mf self parser).2) as [e|[]] eqn:Hr.
  - left. exists e. split; [reflexivity|]. eapply add_raise_keeps_list. exact Hr.
  - right. split; [reflexivity|]. revert Hr. unfold add_parser_to_cascade.
    destruct (check_compliance _ _ _ _) as [e|[]]; simpl; [discriminate|].
    intros _. unfold configure. destruct (negb (configured self)); reflexivity.
Qed.

Lemma add_all_list parsers : forall self,
  match add_all sf mf self parsers with
  | inr self' => _parsers_list self' = _parsers_list self ++ parsers
  | inl e =>
      exists pre p post c,
        parsers = pre ++ p :: post /\
        add_all sf mf self pre = inr c /\
        _parsers_list c = _parsers_list self ++ pre /\
        (add_parser_to_cascade sf mf c p).2 = inl e
  end.
Proof.
  induction parsers as [|p rest IH]; intros self; simpl.
  - rewrite app_nil_r. reflexivity.
  - destruct (add_outcome self p) as [(e & He & Hl)|(Hok & Hl)];
      destruct (add_parser_to_cascade sf mf self p) as [self1 [e1|[]]] eqn:Hadd;
      simpl in *; try discriminate.
    + exists [], p, rest, self. rewrite app_nil_r, Hadd. simpl. auto.
    + specialize (IH self1). destruct (add_all sf mf self1 rest) as [e|self'].
      * destruct IH as (pre & q & post & c & -> & Hpre & Hc & Hq).
        exists (p :: pre), q, post, c. simpl. rewrite Hadd.
        split; [reflexivity|]. split; [exact Hpre|]. split; [|exact Hq].
        rewrite Hc, Hl, <- app_assoc. reflexivity.
      * rewrite IH, Hl, <- app_assoc. reflexivity.
Qed.

Lemma add_raises_value_error self parser e :
  (add_parser_to_cascade sf mf self parser).2 = inl e -> exists msg, e = ValueError msg.
Proof.
  unfold add_parser_to_cascade.
  destruct (check_compliance sf mf (configure self parser) parser) as [e'|[]] eqn:Hc;
    simpl; [|discriminate].
  intros [= <-]. revert Hc. unfold check_compliance.
  repeat match goal with
         | |- context [if ?b then _ else _] => destruct b
         end; intros [= <-]; eauto.
Qed.

(** X1.  [CascadingParser(parsers)] returns a cascade whose list of
    candidates is [parsers], in the order given, and whose [configured]
    flag is false; or it raises the [ValueError] of the first parser of
    the list that [add_parser_to_cascade] refuses, the parsers before it
    having been added. *)
Theorem cascade_init_holds_the_parsers (parsers : list AnyParser) :
  match __init__ sf mf (Some parsers) with
  | inr self => _parsers_list self = parsers /\ configured self = false
  | inl e =>
      exists pre p post c,
        parsers = pre ++ p :: post /\
        __init__ sf mf (Some pre) = inr c /\
        _parsers_list c = pre /\
        (add_parser_to_cascade sf mf c p).2 = inl e /\
        exists msg, e = ValueError msg
  end.
Proof.
  pose proof (add_all_list parsers fresh) as H.
  pose proof (init_not_configured sf mf (Some parsers)) as Hc.
  simpl in *. destruct (add_all sf mf fresh parsers) as [e|self].
  - destruct H as (pre & p & post & c & -> & Hpre & Hl & He).
    exists pre, p, post, c. repeat split; try assumption.
    eapply add_raises_value_error. exact He.
  - split; [exact H|]. apply Hc. reflexivity.
Qed.

End More.

End CascadingParserMore.

Module CascadingParsingPlanMore.
Import CascadingParsingPlan CascadingParsingPlanFacts CascadingParserPlans.











(** X4.  A plan that [__init__] has returned never runs into the
    "empty parser list" [Exception] of [execute]: after any number of
    [execute], a further [execute] ends, and what it raises, if it raises,
    is a [CascadeError] built for the execution. *)
Theorem built_plan_never_reports_empty_list
    (check_var_min_len : exn) (ty : pytype) (obj : PersistedObject) (key : nat)
    (l : list AnyParser) log0 self (n : nat) self_n log_n :
  __init__ check_var_min_len ty obj key l = (log0, inr self) ->
  execute_times n self log0 = Some (self_n, log_n) ->
  exists s tr r,
    execute self_n log_n = Some (s, log_n ++ tr, r) /\
    r <> inl (Exception msg_empty) /\
    (forall e, r = inl e -> exists caught, e = CascadeError for_execution caught).
Proof.
  intros Hinit Hn.
  assert (Hne : l <> []) by (intros ->; discriminate Hinit).
  pose proof (init_spec check_var_min_len ty obj key l Hne) as Hspec.
  rewrite Hinit in Hspec.
  destruct Hspec as (pre & p & pp & post & _ & _ & _ & Hact & _).
  destruct (execute_times_spec n self log0 Hact) as (s' & tr' & Hn' & Hact' & _).
  rewrite Hn in Hn'. injection Hn' as -> ->.
  destruct (execute_spec s' (log0 ++ tr') Hact') as (s & tr & r & Hrun & _ & _ & _ & Hr).
  exists s, tr, r. split; [exact Hrun|].
  destruct r as [err|v].
  - cbv zeta in Hr. destruct Hr as (-> & _). split; [discriminate|].
    intros e [= <-]. eauto.
  - split; [discriminate|]. intros e He. discriminate He.
Qed.

(** The candidates [cand_A], [cand_B]: the third [execute] raises a
    [CascadeError]. *)
Lemma built_plan_never_reports_empty_list_witness :
  exists self_n log_n s tr r,
    __init__ (ValueError "parser_list") (Cls "str") Samples.item 0
      [Samples.cand_A; Samples.cand_B] = ([Create 0], inr MoreSamples.plan_AB) /\
    execute_times 2 MoreSamples.plan_AB [Create 0] = Some (self_n, log_n) /\
    execute self_n log_n = Some (s, log_n ++ tr, r) /\
    r <> inl (Exception msg_empty).
Proof.
  eexists _, _.
  destruct (built_plan_never_reports_empty_list (ValueError "parser_list") (Cls "str")
              Samples.item 0 [Samples.cand_A; Samples.cand_B] [Create 0]
              MoreSamples.plan_AB 2 _ _ eq_refl eq_refl) as (s & tr & r & Hrun & Hne & _).
  exists s, tr, r. split; [reflexivity|]. split; [reflexivity|]. split; assumption.
Defined.

End CascadingParsingPlanMore.

Module CascadeToPlan.
Import CascadingParsingPlan CascadingParsingPlanFacts CascadingParserPlans.

(** X5.  A cascade is built from a list of parsers and asked for a plan.
    With no parser the [check_var] error leaves the constructor of the plan
    and no parser is asked.  Otherwise the parsers are asked for a plan in
    the order they were given to the cascade: the first that builds one
    becomes active, at its index in that list, and the failures of those
    before it are kept; when none builds a plan, a [CascadeError] built for
    the plan creation is raised with the failure of each. *)
Theorem plan_of_cascade_activates_first_builder
    (sf mf : gset string -> gset pytype -> bool) (check_var_min_len : exn)
    (parsers : list AnyParser) (cascade : CascadingParser.t)
    (key : nat) (ty : pytype) (obj : PersistedObject) :
  CascadingParser.__init__ sf mf (Some parsers) = inr cascade ->
  match _create_parsing_plan check_var_min_len cascade key ty obj with
  | (log, inr plan) =>
      exists pre p pp post,
        parsers = pre ++ p :: post /\
        Forall (fun q => is_Some (creation_failure ty obj q)) pre /\
        create_parsing_plan p ty obj = inr pp /\
        parser_list plan = parsers /\
        active_parser_idx plan = Z.of_nat (length pre) /\
        active_parsing_plan plan = Some pp /\
        parsing_plan_creation_errors plan
        = record_failures (creation_failure ty obj) pre ∅ /\
        log = map Create (zrange 0 (S (length pre)))
  | (log, inl e) =>
      (parsers = [] /\ e = check_var_min_len /\ log = []) \/
      (parsers <> [] /\
       Forall (fun q => is_Some (creation_failure ty obj q)) parsers /\
       e = CascadeError for_parsing_plan_creation
             (record_failures (creation_failure ty obj) parsers ∅) /\
       log = map Create (zrange 0 (length parsers)))
  end.
Proof.
  intros Hinit.
  pose proof (CascadingParserMore.cascade_init_holds_the_parsers sf mf parsers) as Hl.
  rewrite Hinit in Hl. destruct Hl as [Hl _].
  unfold _create_parsing_plan. rewrite Hl.
  destruct parsers as [|q parsers].
  - simpl. left. auto.
  - pose proof (init_spec check_var_min_len ty obj key (q :: parsers)) as Hspec.
    destruct (__init__ check_var_min_len ty obj key (q :: parsers)) as [log [e|plan]].
    + right. destruct Hspec as (Hall & -> & ->); [discriminate|].
      split; [discriminate|]. auto.
    + destruct Hspec as (pre & p & pp & post & Hsplit & Hpre & Hc & Hact & _ & Hlist
                         & Hty & Hobj & Herrs & Hidx & Hlog); [discriminate|].
      exists pre, p, pp, post. destruct Hact as (_ & p' & pp' & Hp' & Hc' & Ha).
      repeat split; try assumption.
      rewrite Hlist, Hidx, Nat2Z.id, Hsplit in Hp'.
      rewrite lookup_app_r, Nat.sub_diag in Hp' by lia. injection Hp' as <-.
      rewrite Hty, Hobj, Hc in Hc'. injection Hc' as <-. exact Ha.
Qed.

(** The cascade of [cand_B] and [cand_C]: [cand_B] is asked first and
    fails, [cand_C] becomes active at index 1. *)
Lemma plan_of_cascade_activates_first_builder_witness :
  exists cascade,
    CascadingParser.__init__ Samples.exts_support_singlefile
      Samples.exts_support_multifile (Some [Samples.cand_B; Samples.cand_C])
    = inr cascade /\
    match _create_parsing_plan (ValueError "parser_list") cascade 0 (Cls "str")
            Samples.item with
    | (log, inr plan) =>
        exists pre p pp post,
          [Samples.cand_B; Samples.cand_C] = pre ++ p :: post /\
          Forall (fun q => is_Some (creation_failure (Cls "str") Samples.item q)) pre /\
          create_parsing_plan p (Cls "str") Samples.item = inr pp /\
          parser_list plan = [Samples.cand_B; Samples.cand_C] /\
          active_parser_idx plan = Z.of_nat (length pre) /\
          active_parsing_plan plan = Some pp /\
          parsing_plan_creation_errors plan
          = record_failures (creation_failure (Cls "str") Samples.item) pre ∅ /\
          log = map Create (zrange 0 (S (length pre)))
    | (log, inl e) =>
        ([Samples.cand_B; Samples.cand_C] = [] /\ e = ValueError "parser_list" /\ log = []) \/
        ([Samples.cand_B; Samples.cand_C] <> [] /\
         Forall (fun q => is_Some (creation_failure (Cls "str") Samples.item q))
           [Samples.cand_B; Samples.cand_C] /\
         e = CascadeError for_parsing_plan_creation
               (record_failures (creation_failure (Cls "str") Samples.item)
                  [Samples.cand_B; Samples.cand_C] ∅) /\
         log = map Create (zrange 0 (length [Samples.cand_B; Samples.cand_C])))
    end.
Proof.
  eexists. split; [vm_compute; reflexivity|].
  apply (plan_of_cascade_activates_first_builder Samples.exts_support_singlefile
           Samples.exts_support_multifile (ValueError "parser_list")
           [Samples.cand_B; Samples.cand_C]).
  vm_compute. reflexivity.
Defined.

End CascadeToPlan.

(** ** ParsingChain *)

Module ParsingChainMore.
Import ParsingChain.

Lemma next_iter_single (s : gset pytype) :
  size s = 1 -> exists x, s = {[ x ]} /\ next_iter s = ret x.
Proof.
  intros Hs. apply size_1_elem_of in Hs. destruct Hs as [x Hx].
  apply leibniz_equiv in Hx. exists x. split; [exact Hx|].
  unfold next_iter. rewrite Hx, elements_singleton. reflexivity.
Qed.

(** X6.  A chain that [__init__] returns keeps the base parser and the
    converter it was given, supports the destination type of the converter
    and no other type, and the extensions of the base parser; its base
    parser does not support [Any], and its converter accepts the type the
    base parser is restricted to: the chosen one, or the only supported
    type when none is chosen.  What [__init__] raises is one of its three
    [ValueError].  In particular, with no chosen type and a base parser of
    one type, that type is the one checked against the converter. *)
Theorem chain_init_outcome
    (base_parser : AnyParser) (converter : Converter) (strict0 : bool)
    (chosen : option pytype) :
  (forall chain,
     __init__ base_parser converter strict0 chosen = inr chain ->
     _base_parser chain = base_parser /\ _converter chain = converter /\
     chain_supported_types chain = {[ to_type converter ]} /\
     chain_supported_exts chain = supported_exts base_parser /\
     strict chain = strict0 /\
     (Any ∉ supported_types base_parser) /\
     exists t, is_able_to_convert converter strict0 t None = true /\
               (chosen = Some t \/ (chosen = None /\ supported_types base_parser = {[ t ]}))) /\
  (forall e,
     __init__ base_parser converter strict0 chosen = inl e ->
     e = ValueError msg_pointless \/ e = ValueError msg_several \/
     e = ValueError msg_inconsistent) /\
  (forall t,
     supported_types base_parser = {[ t ]} -> t <> Any ->
     __init__ base_parser converter strict0 None
     = if is_able_to_convert converter strict0 t None
       then ret {| _base_parser := base_parser; _converter := converter;
                   chain_supported_types := {[ to_type converter ]};
                   chain_supported_exts := supported_exts base_parser;
                   strict := strict0 |}
       else raise (ValueError msg_inconsistent)).
Proof.
  split; [|split].
  - intros chain. unfold __init__.
    case_bool_decide as Hany; [discriminate|].
    destruct chosen as [t|]; simpl.
    + destruct (is_able_to_convert converter strict0 t None) eqn:Hable; simpl;
        [|discriminate].
      intros [= <-]. simpl. repeat split; try assumption. eauto.
    + destruct (Nat.eqb_spec (size (supported_types base_parser)) 1) as [Hs|Hs]; simpl;
        [|discriminate].
      destruct (next_iter_single _ Hs) as (t & Ht & ->). simpl.
      destruct (is_able_to_convert converter strict0 t None) eqn:Hable; simpl;
        [|discriminate].
      intros [= <-]. simpl. repeat split; try assumption. eauto.
  - intros e. unfold __init__.
    case_bool_decide as Hany; [intros [= <-]; auto|].
    destruct chosen as [t|]; simpl.
    + destruct (is_able_to_convert converter strict0 t None); simpl;
        [discriminate|intros [= <-]; auto].
    + destruct (Nat.eqb_spec (size (supported_types base_parser)) 1) as [Hs|Hs]; simpl;
        [|intros [= <-]; auto].
      destruct (next_iter_single _ Hs) as (t & Ht & ->). simpl.
      destruct (is_able_to_convert converter strict0 t None); simpl;
        [discriminate|intros [= <-]; auto].
  - intros t Ht Hne. unfold __init__. rewrite Ht.
    rewrite bool_decide_eq_false_2
      by (intros Hin; apply elem_of_singleton in Hin; congruence).
    rewrite size_singleton. simpl.
    unfold next_iter. rewrite elements_singleton. simpl.
    destruct (is_able_to_convert converter strict0 t None); reflexivity.
Qed.

(** The parser of text files supports [str] only: no chosen type is
    needed to chain it with [str_to_int]. *)
Lemma chain_init_outcome_witness :
  supported_types Samples.text_parser = {[ Cls "str" ]} /\
  __init__ Samples.text_parser Samples.str_to_int true None = ret Samples.text_to_int /\
  chain_supported_types Samples.text_to_int = {[ Cls "int" ]}.
Proof.
  split; [reflexivity|].
  destruct (chain_init_outcome Samples.text_parser Samples.str_to_int true None)
    as (Hok & _ & Hsingle).
  assert (Hrun : __init__ Samples.text_parser Samples.str_to_int true None
                 = ret Samples.text_to_int).
  { rewrite (Hsingle (Cls "str")); [reflexivity|reflexivity|discriminate]. }
  split; [exact Hrun|].
  destruct (Hok Samples.text_to_int Hrun) as (_ & _ & Htypes & _). exact Htypes.
Defined.

End ParsingChainMore.

(** ** Multifile collections: parsing the children *)

Module DictMore.
Import Dict DictFacts.

Lemma get_None_iff {V} (d : t V) k : get d k = None <-> k ∉ keys d.
Proof.
  induction d as [|[k' v] d IH]; simpl.
  - split; [intros _; apply not_elem_of_nil|reflexivity].
  - rewrite not_elem_of_cons. destruct (String.eqb_spec k' k) as [->|Hne].
    + split; [discriminate|intros [H _]; congruence].
    + rewrite IH. split; [intros H; split; [congruence|exact H]|tauto].
Qed.

Lemma get_Some_in {V} (d : t V) k v : get d k = Some v -> (k, v) ∈ d.
Proof.
  induction d as [|[k' v'] d IH]; simpl; [discriminate|].
  destruct (String.eqb_spec k' k) as [->|Hne].
  - intros [= ->]. left.
  - intros H. right. apply IH. exact H.
Qed.

Lemma get_in_NoDup {V} (d : t V) k v : NoDup (keys d) -> (k, v) ∈ d -> get d k = Some v.
Proof.
  induction d as [|[k' v'] d IH]; simpl; intros Hnd Hin.
  - apply elem_of_nil in Hin. contradiction.
  - apply NoDup_cons in Hnd as [Hk' Hnd]. apply elem_of_cons in Hin as [Heq|Hin].
    + injection Heq as -> ->. rewrite String.eqb_refl. reflexivity.
    + destruct (String.eqb_spec k' k) as [->|Hne]; [|apply IH; assumption].
      exfalso. apply Hk'. apply (list_elem_of_fmap_2 fst) in Hin. exact Hin.
Qed.

Lemma keys_set_new {V} (d : t V) k v : k ∉ keys d -> keys (set d k v) = keys d ++ [k].
Proof.
  induction d as [|[k' v'] d IH]; simpl; intros Hk; [reflexivity|].
  apply not_elem_of_cons in Hk as [Hne Hk].
  destruct (String.eqb_spec k' k) as [->|_]; [congruence|].
  simpl. f_equal. apply IH. exact Hk.
Qed.

Lemma keys_sorted_items {V} (d : t V) : keys (sorted_items d) ≡ₚ keys d.
Proof. unfold keys. apply Permutation_map, sorted_items_perm. Qed.

End DictMore.

Module ParseChildrenFacts.
Import MultifileCollectionParser DictFacts DictMore.

(** The loop over the sorted plans returns: every child was executed, in
    order, once, and has its value in the dictionary. *)
Lemma parse_children_ok todo : forall results executed executed' d,
  parse_children todo results executed = (executed', inr d) ->
  executed' = executed ++ map fst todo /\
  (forall name, name ∉ map fst todo -> Dict.get d name = Dict.get results name) /\
  (NoDup (map fst todo) -> (forall name, name ∈ map fst todo -> name ∉ Dict.keys results) ->
   Dict.keys d = Dict.keys results ++ map fst todo) /\
  (NoDup (map fst todo) ->
   forall name pp, (name, pp) ∈ todo ->
     exists v, pp_execute pp = inr v /\ Dict.get d name = Some v).
Proof.
  induction todo as [|[name pp] todo IH]; intros results executed executed' d H;
    simpl in H.
  - injection H as <- <-. rewrite !app_nil_r. repeat split; try reflexivity.
    intros _ n p Hin. apply elem_of_nil in Hin. contradiction.
  - destruct (pp_execute pp) as [e|v] eqn:Hv; [discriminate|].
    apply IH in H. destruct H as (-> & Hother & Hkeys & Hall). simpl.
    split; [rewrite <- app_assoc; reflexivity|]. split; [|split].
    + intros n Hn. apply not_elem_of_cons in Hn as [Hne Hn].
      rewrite Hother by exact Hn. apply get_set_ne. congruence.
    + intros Hnd Hfresh. apply NoDup_cons in Hnd as [Hname Hnd].
      rewrite Hkeys.
      * rewrite keys_set_new by (apply Hfresh; left). rewrite <- app_assoc. reflexivity.
      * exact Hnd.
      * intros n Hn. rewrite keys_set_new by (apply Hfresh; left).
        rewrite elem_of_app, list_elem_of_singleton. intros [Hin| ->].
        { apply (Hfresh n); [right; exact Hn|exact Hin]. }
        { contradiction. }
    + intros Hnd n p Hin. apply NoDup_cons in Hnd as [Hname Hnd].
      apply elem_of_cons in Hin as [Heq|Hin].
      * injection Heq as -> ->. exists v. split; [exact Hv|].
        rewrite Hother by exact Hname. apply get_set_eq.
      * apply Hall; assumption.
Qed.

(** The loop raises: the exception is that of the first child, in order,
    whose plan fails; the children after it are not executed. *)
Lemma parse_children_raise todo : forall results executed executed' e,
  parse_children todo results executed = (executed', inl e) ->
  exists done name pp rest,
    todo = done ++ (name, pp) :: rest /\
    Forall (fun x => is_raise (pp_execute (snd x)) = false) done /\
    pp_execute pp = inl e /\
    executed' = executed ++ map fst done ++ [name].
Proof.
  induction todo as [|[name pp] todo IH]; intros results executed executed' e H;
    simpl in H; [discriminate|].
  destruct (pp_execute pp) as [e'|v] eqn:Hv.
  - injection H as <- <-. exists [], name, pp, todo.
    split; [reflexivity|]. split; [constructor|]. split; [exact Hv|reflexivity].
  - apply IH in H. destruct H as (done & n & p & rest & -> & Hdone & Hp & ->).
    exists ((name, pp) :: done), n, p, rest.
    split; [reflexivity|]. split; [constructor; [simpl; rewrite Hv; reflexivity|exact Hdone]|].
    split; [exact Hp|]. simpl. rewrite <- app_assoc. reflexivity.
Qed.

Lemma assemble_cases issubclass ty r :
  (exists c, assemble issubclass ty r = inr c) \/
  (assemble issubclass ty r = inl (TypeError msg_not_supported) /\
   issubclass ty (Cls "list") = false /\ issubclass ty (Cls "tuple") = false /\
   issubclass ty (Cls "Tuple") = false /\ issubclass ty (Cls "set") = false /\
   issubclass ty (Cls "dict") = false).
Proof.
  unfold assemble.
  destruct (issubclass ty (Cls "list")); [left; eauto|].
  destruct (issubclass ty (Cls "tuple")); [left; eauto|].
  destruct (issubclass ty (Cls "Tuple")); [left; eauto|]. simpl.
  destruct (issubclass ty (Cls "set")); [left; eauto|].
  destruct (issubclass ty (Cls "dict")); [left; eauto|].
  right. repeat split.
Qed.

End ParseChildrenFacts.

Module ParseMultifileMore.
Import MultifileCollectionParser DictFacts DictMore ParseChildrenFacts.

(** X7.  With neither flag, [_parse_multifile] executes the plans of the
    children in the order of their names.  When a plan fails, its
    exception is raised as it is and the children after it are not
    executed.  Otherwise each child has been executed once; the
    dictionary of the results has the names of the children as keys, in
    that order, and the value of each child; it is returned directly or
    behind a facade, or a [TypeError] is raised when the desired type is
    none of the four collections, which happens only after the children
    have all been executed. *)
Theorem parse_multifile_now
    (issubclass : pytype -> pytype -> bool) (desired_type : pytype)
    (obj : PersistedObject) (plans : Dict.t ParsingPlan) :
  NoDup (Dict.keys plans) ->
  let sorted := Dict.sorted_items plans in
  match _parse_multifile issubclass desired_type obj plans false false with
  | (executed, inl e) =>
      (exists done name pp rest,
         sorted = done ++ (name, pp) :: rest /\
         Forall (fun x => is_raise (pp_execute (snd x)) = false) done /\
         pp_execute pp = inl e /\
         executed = map fst done ++ [name]) \/
      (e = TypeError msg_not_supported /\ executed = map fst sorted /\
       Forall (fun x => is_raise (pp_execute (snd x)) = false) sorted)
  | (executed, inr coll) =>
      executed = map fst sorted /\
      exists d,
        assemble issubclass desired_type (ParsedNow d) = inr coll /\
        Dict.keys d = map fst sorted /\
        forall name pp, (name, pp) ∈ plans ->
          exists v, pp_execute pp = inr v /\ Dict.get d name = Some v
  end.
Proof.
  intros Hnd sorted. unfold _parse_multifile. simpl. fold sorted.
  assert (Hnds : NoDup (map fst sorted)).
  { subst sorted. pose proof (keys_sorted_items plans) as Hp. unfold Dict.keys in Hp.
    rewrite Hp. exact Hnd. }
  destruct (parse_children sorted [] []) as [executed [e|d]] eqn:Hrun.
  - left. apply parse_children_raise in Hrun.
    destruct Hrun as (done & name & pp & rest & Hs & Hdone & Hp & He).
    exists done, name, pp, rest. auto.
  - apply parse_children_ok in Hrun. destruct Hrun as (He & _ & Hkeys & Hall).
    simpl in He.
    assert (Hok : Forall (fun x => is_raise (pp_execute (snd x)) = false) sorted).
    { apply Forall_forall. intros [name pp] Hin.
      destruct (Hall Hnds name pp Hin) as (v & Hv & _). simpl. rewrite Hv. reflexivity. }
    destruct (assemble_cases issubclass desired_type (ParsedNow d))
      as [[c Hc]|(Hc & _)]; rewrite Hc.
    + split; [exact He|]. exists d. split; [exact Hc|]. split.
      * rewrite Hkeys; [reflexivity|exact Hnds|]. intros n _. apply not_elem_of_nil.
      * intros name pp Hin. apply (Hall Hnds).
        subst sorted. rewrite (sorted_items_perm plans). exact Hin.
    + right. auto.
Qed.

(** Three children given as [b], [c], [a] are executed as [a], [b],
    [c]. *)
Lemma parse_multifile_now_witness :
  NoDup (Dict.keys MoreSamples.plans_bca) /\
  (_parse_multifile MoreSamples.issubclass (Cls "List[str]") Samples.folder
     MoreSamples.plans_bca false false).1 = ["a"; "b"; "c"].
Proof.
  assert (Hnd : NoDup (Dict.keys MoreSamples.plans_bca)).
  { apply (bool_decide_unpack _). vm_compute. exact I. }
  split; [exact Hnd|].
  pose proof (parse_multifile_now MoreSamples.issubclass (Cls "List[str]") Samples.folder
                MoreSamples.plans_bca Hnd) as H.
  cbv zeta in H.
  destruct (_parse_multifile MoreSamples.issubclass (Cls "List[str]") Samples.folder
              MoreSamples.plans_bca false false) as [executed [e|coll]] eqn:Hrun.
  - vm_compute in Hrun. discriminate Hrun.
  - destruct H as [-> _]. reflexivity.
Defined.

(** X8.  With [lazy_parsing] alone, [_parse_multifile] executes no child:
    the results are a [LazyDictionary] over the names of the children.  On
    that dictionary, the first lookup of the name of a child executes the
    plan of that child and of no other, and gives what the plan returns or
    raises; the lookup of a name that is not a child raises [KeyError] and
    executes nothing. *)
Theorem parse_multifile_lazily
    (issubclass : pytype -> pytype -> bool) (desired_type : pytype)
    (obj : PersistedObject) (plans : Dict.t ParsingPlan) :
  let ld := LazyDictionary.__init__ (Dict.keys plans) (loading_method_for plans) in
  _parse_multifile issubclass desired_type obj plans true false
  = ([], assemble issubclass desired_type (Lazily ld)) /\
  (forall name pp executed calls,
     Dict.get plans name = Some pp ->
     LazyDictionary.__getitem__ ld name executed calls
     = (match pp_execute pp with
        | inr v => LazyDictionary.set_inner ld (<[name := v]> ∅)
        | inl _ => ld
        end, executed ++ [name], calls ++ [name], pp_execute pp)) /\
  (forall name executed calls,
     Dict.get plans name = None ->
     LazyDictionary.__getitem__ ld name executed calls
     = (ld, executed, calls, raise (KeyError name))).
Proof.
  intros ld. split; [reflexivity|]. split.
  - intros name pp executed calls Hget. unfold LazyDictionary.__getitem__. simpl.
    rewrite lookup_empty.
    rewrite bool_decide_eq_true_2.
    + unfold loading_method_for. rewrite Hget. destruct (pp_execute pp); reflexivity.
    + apply get_Some_in in Hget. apply (list_elem_of_fmap_2 fst) in Hget. exact Hget.
  - intros name executed calls Hget. unfold LazyDictionary.__getitem__. simpl.
    rewrite lookup_empty. rewrite bool_decide_eq_false_2; [reflexivity|].
    apply get_None_iff. exact Hget.
Qed.

End ParseMultifileMore.

(** ** LazyDictionary *)

Module LazyDictionaryMore.
Import LazyDictionary LazyDictionaryFacts LazyDictionaryRepr.

Section More.

Context {V W : Type}.
Implicit Types (self : t V W) (w : W) (calls : list string).

Lemma getitem_within_keys self name w calls :
  cache_within_keys self ->
  cache_within_keys (__getitem__ self name w calls).1.1.1.
Proof.
  intros Hinv. unfold __getitem__.
  destruct (inner_dict self !! name) as [v|] eqn:Hin; [exact Hinv|].
  case_bool_decide as Hkey; [|exact Hinv].
  destruct (loading_method self name w) as [[e|val] w']; [exact Hinv|].
  intros k. simpl. destruct (decide (name = k)) as [<-|Hne].
  - intros _. exact Hkey.
  - rewrite lookup_insert_ne by exact Hne. apply Hinv.
Qed.

Lemma getitems_within_keys names : forall self w calls,
  cache_within_keys self ->
  cache_within_keys (getitems self names w calls).1.1.1.
Proof.
  induction names as [|name names IH]; intros self w calls Hinv; simpl; [exact Hinv|].
  pose proof (getitem_within_keys self name w calls Hinv) as H1.
  destruct (__getitem__ self name w calls) as [[[self1 w1] calls1] r]. simpl in H1.
  specialize (IH self1 w1 calls1 H1).
  destruct (getitems self1 names w1 calls1) as [[[self2 w2] calls2] rs]. exact IH.
Qed.

Lemma getitem_unknown self k w calls :
  cache_within_keys self -> k ∉ lazyloadable_keys self ->
  __getitem__ self k w calls = (self, w, calls, raise (KeyError k)).
Proof.
  intros Hinv Hk. unfold __getitem__.
  destruct (inner_dict self !! k) as [v|] eqn:Hin.
  - exfalso. apply Hk, Hinv. rewrite Hin. eauto.
  - rewrite bool_decide_eq_false_2 by exact Hk. reflexivity.
Qed.

(** X9.  A fresh [LazyDictionary] caches nothing, and whatever the lookups
    made on a dictionary, the keys it caches stay among its lazy-loadable
    keys.  On such a dictionary, for a name that is not a lazy-loadable
    key: [__contains__] is false, [__getitem__] raises [KeyError] with that
    name, and [get] returns the default; neither calls [loading_method]
    nor changes the dictionary.  [get] never raises [KeyError]. *)
Theorem unknown_key_is_a_key_error self (names : list string) w calls :
  cache_within_keys self ->
  (forall keys_list loader,
     cache_within_keys (__init__ (V := V) (W := W) keys_list loader)) /\
  let self' := (getitems self names w calls).1.1.1 in
  cache_within_keys self' /\
  (forall k w1 calls1 default,
     k ∉ lazyloadable_keys self ->
     __contains__ self' k = false /\
     __getitem__ self' k w1 calls1 = (self', w1, calls1, raise (KeyError k)) /\
     get self' k default w1 calls1 = (self', w1, calls1, ret default)) /\
  (forall key default w1 calls1 k,
     (get self' key default w1 calls1).2 <> inl (KeyError k)).
Proof.
  intros Hinv. split.
  { intros keys_list loader k [v Hv]. simpl in Hv. rewrite lookup_empty in Hv.
    discriminate. }
  intros self'.
  assert (Hinv' : cache_within_keys self') by (apply getitems_within_keys; exact Hinv).
  assert (Hkeys : lazyloadable_keys self' = lazyloadable_keys self).
  { subst self'. destruct (getitems self names w calls) as [[[s w'] c] rs] eqn:Hrun.
    apply getitems_frame in Hrun. tauto. }
  split; [exact Hinv'|]. split.
  - intros k w1 calls1 default Hk. rewrite <- Hkeys in Hk.
    split; [unfold __contains__; apply bool_decide_eq_false_2; exact Hk|].
    pose proof (getitem_unknown self' k w1 calls1 Hinv' Hk) as Hget.
    split; [exact Hget|]. unfold get. rewrite Hget. reflexivity.
  - intros key default w1 calls1 k. unfold get.
    destruct (__getitem__ self' key w1 calls1) as [[[s w2] c] [e|v]];
      [destruct e|]; simpl; discriminate.
Qed.

(** X10.  A load that raises is not cached: while [loading_method] raises
    for a lazy-loadable key that is not cached, each lookup of the key
    calls it again and raises, and the dictionary stays as it was. *)
Theorem failed_load_is_retried self (k : string) (n : nat) w calls :
  inner_dict self !! k = None ->
  k ∈ lazyloadable_keys self ->
  (forall w0, exists e w1, loading_method self k w0 = (inl e, w1)) ->
  (getitems self (repeat k n) w calls).1.1.1 = self /\
  (getitems self (repeat k n) w calls).1.2 = calls ++ repeat k n /\
  length (getitems self (repeat k n) w calls).2 = n /\
  Forall (fun r => is_raise r = true) (getitems self (repeat k n) w calls).2.
Proof.
  intros Hnone Hkey Hfail. revert w calls.
  induction n as [|n IH]; intros w calls; simpl.
  - rewrite app_nil_r. repeat split. constructor.
  - unfold __getitem__ at 1 2 3 4. rewrite Hnone, bool_decide_eq_true_2 by exact Hkey.
    destruct (Hfail w) as (e & w1 & ->).
    specialize (IH w1 (calls ++ [k])).
    destruct (getitems self (repeat k n) w1 (calls ++ [k])) as [[[s2 w2] c2] rs].
    simpl in *. destruct IH as (-> & -> & Hlen & Hall).
    split; [reflexivity|]. split; [rewrite <- app_assoc; reflexivity|].
    split; [congruence|]. constructor; [reflexivity|exact Hall].
Qed.

Variable repr_dict : gmap string V -> string.
Variable str_list : list string -> string.

Lemma dom_within_keys self :
  cache_within_keys self -> dom (inner_dict self) ⊆ list_to_set (lazyloadable_keys self).
Proof.
  intros Hinv k Hk. apply elem_of_dom in Hk. apply elem_of_list_to_set, Hinv, Hk.
Qed.

(** X11.  With distinct lazy-loadable keys, [__repr__] and [__str__] print
    the inner dictionary exactly when every key is cached: as long as one
    key is not, they print "not entirely loaded yet" and the keys. *)
Theorem repr_prints_values_when_all_loaded self :
  cache_within_keys self ->
  NoDup (lazyloadable_keys self) ->
  ((forall k, k ∈ lazyloadable_keys self -> is_Some (inner_dict self !! k)) ->
   __repr__ repr_dict str_list self = repr_dict (inner_dict self) /\
   __str__ repr_dict str_list self = repr_dict (inner_dict self)) /\
  (forall k,
     k ∈ lazyloadable_keys self -> inner_dict self !! k = None ->
     __repr__ repr_dict str_list self
     = String.append msg_not_loaded (str_list (lazyloadable_keys self)) /\
     __str__ repr_dict str_list self
     = String.append msg_not_loaded (str_list (lazyloadable_keys self))).
Proof.
  intros Hinv Hnd.
  pose proof (dom_within_keys self Hinv) as Hsub.
  assert (Hlen : size (list_to_set (lazyloadable_keys self) : gset string)
                 = __len__ self).
  { unfold __len__. apply size_list_to_set. exact Hnd. }
  split.
  - intros Hall.
    assert (Heq : dom (inner_dict self) = list_to_set (lazyloadable_keys self)).
    { apply set_eq. intros k. split; [apply Hsub|].
      rewrite elem_of_list_to_set, elem_of_dom. apply Hall. }
    unfold __str__, __repr__. rewrite <- size_dom, Heq, Hlen, Nat.eqb_refl.
    split; reflexivity.
  - intros k Hk Hnone.
    assert (Hlt : size (dom (inner_dict self)) < __len__ self).
    { rewrite <- Hlen. apply subset_size. split; [exact Hsub|].
      intros Hsup. assert (Hin : k ∈ dom (inner_dict self)).
      { apply Hsup, elem_of_list_to_set, Hk. }
      apply elem_of_dom in Hin. rewrite Hnone in Hin. destruct Hin; discriminate. }
    unfold __str__, __repr__. rewrite <- size_dom.
    destruct (Nat.eqb_spec (size (dom (inner_dict self))) (__len__ self)); [lia|].
    split; reflexivity.
Qed.

End More.

(** The dictionary [lazy_ab]: after the lookup of [a] it is not entirely
    loaded; after the lookups of [a] and [b] it is. *)
Lemma repr_prints_values_when_all_loaded_witness :
  let repr_dict := fun _ : gmap string pyobj => "{...}" in
  let str_list := String.concat ", " in
  __repr__ repr_dict str_list (getitems Samples.lazy_ab ["a"] 0 []).1.1.1
  = "LazyDictionary - not entirely loaded yet. Keys: a, b" /\
  __repr__ repr_dict str_list (getitems Samples.lazy_ab ["a"; "b"] 0 []).1.1.1
  = "{...}".
Proof.
  intros repr_dict str_list.
  assert (Hinv : forall names,
             cache_within_keys (getitems Samples.lazy_ab names 0 []).1.1.1).
  { intros names. apply getitems_within_keys.
    intros k [v Hv]. simpl in Hv. rewrite lookup_empty in Hv. discriminate. }
  assert (Hnd : NoDup ["a"; "b"]).
  { apply (bool_decide_unpack _). vm_compute. exact I. }
  split.
  - destruct (repr_prints_values_when_all_loaded repr_dict str_list _ (Hinv ["a"]) Hnd)
      as [_ Hnot].
    destruct (Hnot "b") as [Hrepr _]; [simpl; right; left|reflexivity|exact Hrepr].
  - destruct (repr_prints_values_when_all_loaded repr_dict str_list _
                (Hinv ["a"; "b"]) Hnd) as [Hall _].
    destruct Hall as [Hrepr _]; [|exact Hrepr].
    intros k Hk. simpl in Hk. apply elem_of_cons in Hk as [->|Hk];
      [vm_compute; eauto|].
    apply list_elem_of_singleton in Hk as ->. vm_compute. eauto.
Defined.

Lemma failed_load_is_retried_witness :
  inner_dict MoreSamples.lazy_failing !! "a" = None /\
  "a" ∈ lazyloadable_keys MoreSamples.lazy_failing /\
  (getitems MoreSamples.lazy_failing ["a"; "a"; "a"] 0 []).1.2 = ["a"; "a"; "a"].
Proof.
  assert (Hin : "a" ∈ lazyloadable_keys MoreSamples.lazy_failing) by (simpl; left).
  split; [reflexivity|]. split; [exact Hin|].
  apply (failed_load_is_retried MoreSamples.lazy_failing "a" 3 0 [] eq_refl Hin).
  intros w0. eexists _, _. reflexivity.
Defined.

(** The dictionary [lazy_ab] after the lookup of [a]: [z] is no key. *)
Lemma unknown_key_is_a_key_error_witness :
  cache_within_keys Samples.lazy_ab /\
  (let self' := (getitems Samples.lazy_ab ["a"] 0 []).1.1.1 in
   __getitem__ self' "z" 1 ["a"] = (self', 1, ["a"], raise (KeyError "z")) /\
   get self' "z" PyNone 1 ["a"] = (self', 1, ["a"], ret PyNone)).
Proof.
  assert (Hinv : cache_within_keys Samples.lazy_ab).
  { intros k [v Hv]. simpl in Hv. rewrite lookup_empty in Hv. discriminate. }
  split; [exact Hinv|].
  destruct (unknown_key_is_a_key_error Samples.lazy_ab ["a"] 0 [] Hinv)
    as (_ & _ & Hunknown & _).
  intros self'.
  destruct (Hunknown "z" 1 ["a"] PyNone) as (_ & Hget & Hdef).
  { simpl. intros Hin. apply elem_of_cons in Hin as [Hin|Hin]; [discriminate|].
    apply list_elem_of_singleton in Hin. discriminate. }
  split; assumption.
Defined.

End LazyDictionaryMore.

(** ** The list and tuple facades *)

Module StringOrder.
Import KeySortedSequenceFacadeForDict.

Lemma ascii_compare_trans_lt a b c :
  Ascii.compare a b = Lt -> Ascii.compare b c = Lt -> Ascii.compare a c = Lt.
Proof.
  unfold Ascii.compare. rewrite !N.compare_lt_iff. lia.
Qed.

Lemma compare_trans_lt s1 : forall s2 s3,
  String.compare s1 s2 = Lt -> String.compare s2 s3 = Lt -> String.compare s1 s3 = Lt.
Proof.
  induction s1 as [|a s1 IH]; intros [|b s2] [|c s3]; simpl; try congruence.
  destruct (Ascii.compare a b) eqn:Hab; try discriminate.
  - apply Ascii.compare_eq_iff in Hab. subst b.
    destruct (Ascii.compare a c) eqn:Hac; try congruence. apply IH.
  - intros _. destruct (Ascii.compare b c) eqn:Hbc; try discriminate.
    + apply Ascii.compare_eq_iff in Hbc. subst c. rewrite Hab. reflexivity.
    + intros _. rewrite (ascii_compare_trans_lt _ _ _ Hab Hbc). reflexivity.
Qed.

Lemma leb_trans s1 s2 s3 :
  String.leb s1 s2 = true -> String.leb s2 s3 = true -> String.leb s1 s3 = true.
Proof.
  unfold String.leb.
  destruct (String.compare s1 s2) eqn:H12; try discriminate; intros _.
  - apply String.compare_eq_iff in H12. subst s2. tauto.
  - destruct (String.compare s2 s3) eqn:H23; try discriminate; intros _.
    + apply String.compare_eq_iff in H23. subst s3. rewrite H12. reflexivity.
    + rewrite (compare_trans_lt _ _ _ H12 H23). reflexivity.
Qed.

#[export] Instance str_le_trans : Transitive str_le.
Proof. intros x y z. apply leb_trans. Qed.

#[export] Instance str_le_antisym : AntiSymm (=) str_le.
Proof. intros x y. apply String.leb_antisym. Qed.

End StringOrder.

Module SequenceFacadeFacts.
Import MultifileCollectionParser KeySortedSequenceFacadeForDict StringOrder.
Import DictFacts DictMore ParseChildrenFacts.

Lemma insert_key_perm x l : insert_key x l ≡ₚ x :: l.
Proof.
  induction l as [|y l IH]; simpl; [reflexivity|].
  destruct (String.leb x y); [reflexivity|].
  rewrite IH. apply Permutation_swap.
Qed.

Lemma sorted_perm l : sorted l ≡ₚ l.
Proof.
  unfold sorted. induction l as [|x l IH]; simpl; [reflexivity|].
  rewrite insert_key_perm, IH. reflexivity.
Qed.

Lemma insert_key_sorted x l : Sorted str_le l -> Sorted str_le (insert_key x l).
Proof.
  induction 1 as [|y l Hs IH Hhd]; simpl; [repeat constructor|].
  destruct (String.leb x y) eqn:Hxy.
  - constructor; [constructor; assumption|]. constructor. exact Hxy.
  - constructor; [exact IH|].
    assert (Hyx : str_le y x).
    { unfold str_le. destruct (String.leb_total x y) as [H|H]; [congruence|exact H]. }
    destruct l as [|z l]; simpl; [constructor; exact Hyx|].
    destruct (String.leb x z); constructor; [exact Hyx|].
    inversion Hhd; assumption.
Qed.

Lemma sorted_sorted l : Sorted str_le (sorted l).
Proof.
  unfold sorted. induction l as [|x l IH]; simpl; [constructor|].
  apply insert_key_sorted, IH.
Qed.

(** [sorted] depends on the elements only. *)
Lemma sorted_of_perm l1 l2 : l1 ≡ₚ l2 -> sorted l1 = sorted l2.
Proof.
  intros Hp. apply (Sorted_unique str_le); try apply sorted_sorted.
  rewrite !sorted_perm. exact Hp.
Qed.

Lemma insert_sorted_keys {V} (x : string * V) l :
  map fst (Dict.insert_sorted x l) = insert_key (fst x) (map fst l).
Proof.
  induction l as [|y l IH]; simpl; [reflexivity|].
  destruct (String.leb (fst x) (fst y)); simpl; [reflexivity|]. rewrite IH. reflexivity.
Qed.

(** The keys in the order of [sorted(d.items())] are [sorted(d.keys())]. *)
Lemma sorted_items_keys {V} (d : Dict.t V) :
  map fst (Dict.sorted_items d) = sorted (Dict.keys d).
Proof.
  unfold Dict.sorted_items, sorted, Dict.keys.
  induction d as [|x d IH]; simpl; [reflexivity|].
  rewrite insert_sorted_keys, IH. reflexivity.
Qed.

Lemma sorted_idem l : sorted (sorted l) = sorted l.
Proof. apply sorted_of_perm, sorted_perm. Qed.

Lemma item_nonneg {A} (l : list A) (i : nat) : item l (Z.of_nat i) = l !! i.
Proof.
  unfold item. destruct (Z.ltb_spec (Z.of_nat i) 0) as [H|_]; [lia|].
  destruct (Z.ltb_spec (Z.of_nat i) 0) as [H|_]; [lia|]. rewrite Nat2Z.id. reflexivity.
Qed.

Lemma item_from_end {A} (l : list A) (i : nat) :
  (i < length l)%nat -> item l (Z.of_nat i - Z.of_nat (length l)) = l !! i.
Proof.
  intros Hi. unfold item.
  destruct (Z.ltb_spec (Z.of_nat i - Z.of_nat (length l)) 0) as [_|H]; [|lia].
  replace (Z.of_nat i - Z.of_nat (length l) + Z.of_nat (length l))%Z with (Z.of_nat i) by lia.
  destruct (Z.ltb_spec (Z.of_nat i) 0) as [H|_]; [lia|]. rewrite Nat2Z.id. reflexivity.
Qed.

Lemma item_out_of_range {A} (l : list A) (index : Z) :
  (index < - Z.of_nat (length l) \/ Z.of_nat (length l) <= index)%Z -> item l index = None.
Proof.
  intros H. unfold item.
  destruct (Z.ltb_spec index 0) as [Hneg|Hpos].
  - destruct (Z.ltb_spec (index + Z.of_nat (length l)) 0) as [_|H']; [reflexivity|lia].
  - destruct (Z.ltb_spec index 0) as [H'|_]; [lia|].
    apply lookup_ge_None. lia.
Qed.

Lemma assemble_sequence issubclass ty r c r' :
  assemble issubclass ty r = inr c -> _inner_dict c = Some r' -> r' = r.
Proof.
  unfold assemble.
  repeat match goal with |- context [if ?b then _ else _] => destruct b end;
    intros [= <-]; simpl; congruence.
Qed.

End SequenceFacadeFacts.

Module SequenceFacadeMore.
Import MultifileCollectionParser KeySortedSequenceFacadeForDict StringOrder.
Import DictFacts DictMore ParseChildrenFacts SequenceFacadeFacts.

Lemma item_index_of {A} (l : list A) i index x :
  l !! i = Some x -> index_of (length l) i index -> item l index = Some x.
Proof.
  intros Hx [-> | ->].
  - rewrite item_nonneg. exact Hx.
  - rewrite item_from_end by (eapply lookup_lt_Some; exact Hx). exact Hx.
Qed.

Lemma sorted_items_lookup_key {V} (d : Dict.t V) i name v :
  Dict.sorted_items d !! i = Some (name, v) -> sorted (Dict.keys d) !! i = Some name.
Proof.
  intros H. rewrite <- sorted_items_keys. rewrite list_lookup_fmap, H. reflexivity.
Qed.

Lemma sorted_keys_length {V} (d : Dict.t V) : length (sorted (Dict.keys d)) = length d.
Proof.
  rewrite <- sorted_items_keys, length_map. apply sorted_items_length.
Qed.

(** X12.  The list or tuple that [_parse_multifile] returns when it
    parses right now has one element per child; the element at position
    [i], asked for from the start or from the end, is the value that the
    plan of the [i]-th child in the order of the names returned, and
    asking for it executes nothing.  An index out of range raises
    [IndexError]. *)
Theorem parsed_sequence_is_the_children_in_name_order
    (issubclass : pytype -> pytype -> bool) (desired_type : pytype)
    (obj : PersistedObject) (plans : Dict.t ParsingPlan)
    (executed : list string) (coll : collection) (r : results) :
  NoDup (Dict.keys plans) ->
  _parse_multifile issubclass desired_type obj plans false false = (executed, inr coll) ->
  _inner_dict coll = Some r ->
  __len__ r = length plans /\
  (forall i name pp index,
     Dict.sorted_items plans !! i = Some (name, pp) ->
     index_of (length plans) i index ->
     exists v, pp_execute pp = inr v /\
       forall ex calls, __getitem__ r index ex calls = (r, ex, calls, inr v)) /\
  (forall index ex calls,
     out_of_range (length plans) index ->
     __getitem__ r index ex calls = (r, ex, calls, inl IndexError)).
Proof.
  intros Hnd Hrun Hcoll. unfold _parse_multifile in Hrun. simpl in Hrun.
  assert (Hnds : NoDup (map fst (Dict.sorted_items plans))).
  { pose proof (keys_sorted_items plans) as Hp. unfold Dict.keys in Hp.
    rewrite Hp. exact Hnd. }
  destruct (parse_children (Dict.sorted_items plans) [] []) as [executed' [e|d]] eqn:Hloop;
    [discriminate|].
  injection Hrun as <- Hasm.
  apply (assemble_sequence _ _ _ _ _ Hasm) in Hcoll. subst r.
  apply parse_children_ok in Hloop. destruct Hloop as (_ & _ & Hkeys & Hall).
  assert (Hk : Dict.keys d = sorted (Dict.keys plans)).
  { rewrite Hkeys; [apply sorted_items_keys|exact Hnds|].
    intros n _. apply not_elem_of_nil. }
  assert (Hs : sorted (Dict.keys d) = sorted (Dict.keys plans)).
  { rewrite Hk. apply sorted_idem. }
  assert (Hlen : length d = length plans).
  { rewrite <- (sorted_keys_length plans), <- Hk. unfold Dict.keys.
    rewrite length_map. reflexivity. }
  split; [exact Hlen|]. split.
  - intros i name pp index Hi Hidx.
    destruct (Hall Hnds name pp) as (v & Hv & Hget).
    { eapply list_elem_of_lookup_2. exact Hi. }
    exists v. split; [exact Hv|]. intros ex calls.
    unfold __getitem__. cbn [inner_keys]. rewrite Hs.
    rewrite (item_index_of _ i index name).
    + rewrite Hget. reflexivity.
    + eapply sorted_items_lookup_key. exact Hi.
    + rewrite sorted_keys_length. exact Hidx.
  - intros index ex calls Hout. unfold __getitem__. cbn [inner_keys]. rewrite Hs.
    rewrite item_out_of_range; [reflexivity|].
    rewrite sorted_keys_length. exact Hout.
Qed.

(** The children [b], [c], [a] as a list of three: [a]'s value comes
    first. *)
Lemma parsed_sequence_is_the_children_in_name_order_witness :
  NoDup (Dict.keys MoreSamples.plans_bca) /\
  exists executed coll r,
    _parse_multifile MoreSamples.issubclass (Cls "List[str]") Samples.folder
      MoreSamples.plans_bca false false = (executed, inr coll) /\
    _inner_dict coll = Some r /\
    __len__ r = 3%nat /\
    __getitem__ r 0 [] [] = (r, [], [], inr (PyStr "A")).
Proof.
  assert (Hnd : NoDup (Dict.keys MoreSamples.plans_bca)).
  { apply (bool_decide_unpack _). vm_compute. exact I. }
  split; [exact Hnd|].
  eexists _, _, _.
  assert (Hrun : _parse_multifile MoreSamples.issubclass (Cls "List[str]") Samples.folder
            MoreSamples.plans_bca false false
          = (["a"; "b"; "c"],
             inr (KeySortedListFacadeForDict
                    (ParsedNow [("a", PyStr "A"); ("b", PyStr "B"); ("c", PyStr "C")]))))
    by (vm_compute; reflexivity).
  split; [exact Hrun|]. split; [reflexivity|].
  destruct (parsed_sequence_is_the_children_in_name_order _ _ _ _ _ _ _ Hnd Hrun eq_refl)
    as (Hlen & Hitem & _).
  split; [exact Hlen|].
  destruct (Hitem 0%nat "a" {| pp_parser := 22; pp_execute := ret (PyStr "A") |} 0%Z)
    as (v & Hv & Hget).
  - vm_compute. reflexivity.
  - left. reflexivity.
  - injection Hv as <-. apply Hget.
Defined.

(** X13.  The list or tuple that [_parse_multifile] returns with
    [lazy_parsing] has one element per child, and gives its length without
    parsing.  Whatever has been loaded so far, asking for the element at
    position [i] returns the cached value of the [i]-th child in the order
    of the names when there is one, with no execution; otherwise it
    executes the plan of that child and of no other, caches the value it
    returns, or raises its exception and caches nothing.  An index out of
    range raises [IndexError] and executes nothing. *)
Theorem lazy_sequence_parses_the_child_asked_for
    (issubclass : pytype -> pytype -> bool) (desired_type : pytype)
    (obj : PersistedObject) (plans : Dict.t ParsingPlan)
    (executed : list string) (coll : collection) (r : results) :
  NoDup (Dict.keys plans) ->
  _parse_multifile issubclass desired_type obj plans true false = (executed, inr coll) ->
  _inner_dict coll = Some r ->
  let ld := LazyDictionary.__init__ (Dict.keys plans) (loading_method_for plans) in
  executed = [] /\ r = Lazily ld /\
  forall cache : gmap string pyobj,
    let now := Lazily (LazyDictionary.set_inner ld cache) in
    __len__ now = length plans /\
    (forall i name pp index ex calls,
       Dict.sorted_items plans !! i = Some (name, pp) ->
       index_of (length plans) i index ->
       __getitem__ now index ex calls =
       match cache !! name with
       | Some v => (now, ex, calls, inr v)
       | None =>
           match pp_execute pp with
           | inr v => (Lazily (LazyDictionary.set_inner ld (<[name := v]> cache)),
                       ex ++ [name], calls ++ [name], inr v)
           | inl e => (now, ex ++ [name], calls ++ [name], inl (FromDict e))
           end
       end) /\
    (forall index ex calls,
       out_of_range (length plans) index ->
       __getitem__ now index ex calls = (now, ex, calls, inl IndexError)).
Proof.
  intros Hnd Hrun Hcoll ld. unfold _parse_multifile in Hrun. simpl in Hrun.
  injection Hrun as <- Hasm.
  apply (assemble_sequence _ _ _ _ _ Hasm) in Hcoll. subst r. fold ld.
  split; [reflexivity|]. split; [reflexivity|].
  intros cache now.
  assert (Hs : sorted (inner_keys now) = sorted (Dict.keys plans)).
  { apply sorted_of_perm. unfold now, inner_keys, LazyDictionary.keys. simpl.
    apply elements_list_to_set. exact Hnd. }
  split; [|split].
  - unfold now, __len__, LazyDictionary.__len__. simpl. unfold Dict.keys.
    apply length_map.
  - intros i name pp index ex calls Hi Hidx.
    assert (Hin : (name, pp) ∈ plans).
    { rewrite <- (sorted_items_perm plans). eapply list_elem_of_lookup_2. exact Hi. }
    unfold __getitem__. rewrite Hs.
    rewrite (item_index_of _ i index name).
    + unfold now, LazyDictionary.__getitem__. simpl.
      destruct (cache !! name) as [v|]; [reflexivity|].
      rewrite bool_decide_eq_true_2
        by (apply (list_elem_of_fmap_2 fst) in Hin; exact Hin).
      unfold loading_method_for. rewrite (get_in_NoDup plans name pp Hnd Hin).
      destruct (pp_execute pp); reflexivity.
    + eapply sorted_items_lookup_key. exact Hi.
    + rewrite sorted_keys_length. exact Hidx.
  - intros index ex calls Hout. unfold __getitem__. rewrite Hs.
    rewrite item_out_of_range; [reflexivity|].
    rewrite sorted_keys_length. exact Hout.
Qed.

(** Of the children [b], [c], [a] taken lazily, the last element of the
    list is [c]'s: only [c] is executed. *)
Lemma lazy_sequence_parses_the_child_asked_for_witness :
  NoDup (Dict.keys MoreSamples.plans_bca) /\
  exists coll r,
    _parse_multifile MoreSamples.issubclass (Cls "List[str]") Samples.folder
      MoreSamples.plans_bca true false = ([], inr coll) /\
    _inner_dict coll = Some r /\
    (let '(_, ex, _, v) := __getitem__ r (-1) [] [] in (ex, v))
    = (["c"], inr (PyStr "C")).
Proof.
  assert (Hnd : NoDup (Dict.keys MoreSamples.plans_bca)).
  { apply (bool_decide_unpack _). vm_compute. exact I. }
  split; [exact Hnd|].
  eexists _, _.
  split; [reflexivity|]. split; [reflexivity|].
  destruct (lazy_sequence_parses_the_child_asked_for MoreSamples.issubclass (Cls "List[str]")
              Samples.folder MoreSamples.plans_bca [] _ _ Hnd eq_refl eq_refl)
    as (_ & _ & Hall).
  destruct (Hall ∅) as (_ & Hitem & _).
  assert (Hc : Dict.sorted_items MoreSamples.plans_bca !! 2%nat
               = Some ("c", {| pp_parser := 22; pp_execute := ret (PyStr "C") |}))
    by (vm_compute; reflexivity).
  exact (f_equal (fun x : results * list string * list string * (error + pyobj) =>
                    let '(_, ex, _, v) := x in (ex, v))
           (Hitem 2%nat _ _ (-1)%Z [] [] Hc (or_intror eq_refl))).
Defined.

End SequenceFacadeMore.
